(** * The containerd container engine of libsinsp

    A shallow embedding of [userspace/libsinsp/container_engine/containerd.cpp]:
    the discovery of the control socket in the constructor of the engine,
    the query of the daemon ([containerd_interface]), the assembly of a
    [sinsp_container_info] from the answer ([parse_containerd]) and the
    publication to the container cache ([resolve]).

    C++ behaviour that is undefined or that throws (a null [unique_ptr]
    dereferenced, a [std::vector] indexed past its end, a JsonCpp logic error)
    is a [Fault] of the model: the code has no handler for any of them.
    Deadlines on the RPC context are real time and are left out. *)

From Stdlib Require Import ZArith Lia Ascii.
From stdpp Require Import base option list strings gmap.

#[local] Set Warnings "-register-all".
Local Open Scope Z_scope.

(** ** Outcomes of C++ code that may fault *)

Inductive fault : Type :=
| NullDereference      (* operator-> on an empty unique_ptr *)
| VectorOutOfRange     (* operator[] past the end of a std::vector *)
| StringOutOfRange     (* std::out_of_range thrown by std::string::substr *)
| JsonLogicError.      (* Json::LogicError thrown by Json::Value *)

Inductive outcome (A : Type) : Type :=
| Ret (a : A)
| Fault (f : fault).
Arguments Ret {A} a.
Arguments Fault {A} f.

#[global] Instance outcome_ret : MRet outcome := fun A a => Ret a.
#[global] Instance outcome_bind : MBind outcome := fun A B k m =>
  match m with
  | Ret a => k a
  | Fault f => Fault f
  end.

(** ** std::string *)

Module Str.

(** [size_t] is 64 bits wide; [npos] is its largest value and [npos + 1]
    wraps around to 0. *)
Definition size_t_modulus : Z := 2 ^ 64.
Definition npos : Z := size_t_modulus - 1.
Definition size_t_add (a b : Z) : Z := (a + b) mod size_t_modulus.

Definition size (s : string) : Z := Z.of_nat (String.length s).

Definition empty (s : string) : bool :=
  match s with EmptyString => true | String _ _ => false end.

(** The last index [j >= i] at which [pat] occurs in [s], where [s] is the
    tail of the searched string that starts at index [i]. *)
Fixpoint rfind_from (pat s : string) (i : nat) : option nat :=
  match s with
  | EmptyString => if String.prefix pat EmptyString then Some i else None
  | String _ s' =>
      match rfind_from pat s' (S i) with
      | Some j => Some j
      | None => if String.prefix pat s then Some i else None
      end
  end.

(** [s.rfind(pat)]: the position of the last occurrence, or [npos]. *)
Definition rfind (s pat : string) : Z :=
  match rfind_from pat s 0 with
  | Some j => Z.of_nat j
  | None => npos
  end.

Fixpoint drop (n : nat) (s : string) : string :=
  match n, s with
  | O, _ => s
  | S n', String _ s' => drop n' s'
  | S _, EmptyString => EmptyString
  end.

Fixpoint take (n : nat) (s : string) : string :=
  match n, s with
  | S n', String c s' => String c (take n' s')
  | _, _ => EmptyString
  end.

(** The [min(count, size() - pos)] characters of [s] from [pos]. *)
Definition substr_chars (s : string) (pos count : Z) : string :=
  take (Z.to_nat (Z.min count (size s - pos))) (drop (Z.to_nat pos) s).

(** [s.substr(pos, count)]: throws when [pos > size()]. *)
Definition substr (s : string) (pos count : Z) : outcome string :=
  if size s <? pos then Fault StringOutOfRange
  else Ret (substr_chars s pos count).

(** [s.substr(pos)]: [count] defaults to [npos]. *)
Definition substr_from (s : string) (pos : Z) : outcome string :=
  substr s pos npos.

Fixpoint contains_char (c : ascii) (s : string) : bool :=
  match s with
  | EmptyString => false
  | String d s' => if Ascii.eqb c d then true else contains_char c s'
  end.

(** [needle] occurs somewhere in [s]. *)
Fixpoint is_infix (needle s : string) : bool :=
  if String.prefix needle s then true
  else match s with
       | EmptyString => false
       | String _ s' => is_infix needle s'
       end.

End Str.

(** ** sinsp_split *)

(** Modelled from the spec: [sinsp_split] is defined in libsinsp's utilities,
    not in containerd.cpp; step 3 of the resolver says "Split the
    descriptor's image reference on `:`".  The fields between the delimiters,
    in order; an empty string has no field. *)
Fixpoint split_fields (delim : ascii) (s : string) (cur : string) : list string :=
  match s with
  | EmptyString => [cur]
  | String c s' =>
      if Ascii.eqb c delim then cur :: split_fields delim s' EmptyString
      else split_fields delim s' (cur +:+ String c EmptyString)
  end.

Definition sinsp_split (s : string) (delim : ascii) : list string :=
  if Str.empty s then [] else split_fields delim s EmptyString.

(** [v[i]] on a [std::vector]: undefined past the end. *)
Definition vector_at {A} (v : list A) (i : nat) : outcome A :=
  match v !! i with
  | Some a => Ret a
  | None => Fault VectorOutOfRange
  end.

(** ** Json::Value *)

(** JsonCpp is an external library.  These are the operations of
    [Json::Value] the engine uses, as JsonCpp defines them: [operator[]] with
    a key yields the member or a null value and requires a null or an object
    value; a range-for visits the items of an array and the member values of
    an object and nothing for any other value; [asString] converts scalars and
    refuses arrays and objects. *)
Module Json.

Inductive Value : Type :=
| nullValue
| numericValue (text : string)   (* a number, with the text asString gives *)
| stringValue (s : string)
| booleanValue (b : bool)
| arrayValue (items : list Value)
| objectValue (members : list (string * Value)).

Fixpoint find_member (members : list (string * Value)) (key : string) : Value :=
  match members with
  | [] => nullValue
  | (k, v) :: rest => if String.eqb k key then v else find_member rest key
  end.

(** [v[key]] *)
Definition member (v : Value) (key : string) : outcome Value :=
  match v with
  | nullValue => Ret nullValue
  | objectValue members => Ret (find_member members key)
  | _ => Fault JsonLogicError
  end.

(** [for (const auto &x : v)] *)
Definition elements (v : Value) : list Value :=
  match v with
  | arrayValue items => items
  | objectValue members => members.*2
  | _ => []
  end.

(** [v.asString()] *)
Definition asString (v : Value) : outcome string :=
  match v with
  | nullValue => Ret EmptyString
  | numericValue text => Ret text
  | stringValue s => Ret s
  | booleanValue b => Ret (if b then "true" else "false")%string
  | arrayValue _ | objectValue _ => Fault JsonLogicError
  end.

End Json.

(** ** The containerd service (protobuf messages and gRPC) *)

Module ContainerdService.

(** [google.protobuf.Any]: only [value] is read. *)
Record Any : Type := { value : string }.

(** [Container]: the fields the engine reads. *)
Record Container : Type := {
  id : string;
  image : string;
  labels : gmap string string;
  spec : Any;
}.

Record ListContainersRequest : Type := { filters : list string }.

Record ListContainersResponse : Type := { containers : list Container }.

End ContainerdService.

Module grpc.

Inductive Status : Type :=
| OK
| Error (error_message : string).

Definition ok (s : Status) : bool :=
  match s with OK => true | Error _ => false end.

Definition error_message (s : Status) : string :=
  match s with OK => EmptyString | Error m => m end.

(** [grpc::ClientContext]: the metadata added to the call. *)
Record ClientContext : Type := { metadata : list (string * string) }.

End grpc.

(** The daemon behind a channel: what [Containers::Stub::List] answers on the
    channel to [target] for a context and a request.  A failed call leaves
    the response as it was constructed, which the answer carries too. *)
Definition containerd_daemon : Type :=
  string -> grpc.ClientContext -> ContainerdService.ListContainersRequest ->
  grpc.Status * ContainerdService.ListContainersResponse.

(** The stub made by [Containers::NewStub] on the channel the registry gives
    for [target]. *)
Record Stub : Type := { target : string }.

(** ** Container records *)

Inductive sinsp_container_type : Type :=
| CT_UNKNOWN
| CT_CONTAINERD.

#[global] Instance sinsp_container_type_eq_dec : EqDecision sinsp_container_type.
Proof. solve_decision. Defined.

Module sinsp_container_lookup.
Inductive state : Type :=
| STARTED
| SUCCESSFUL
| FAILED.
End sinsp_container_lookup.

(** [sinsp_container_info::container_mount_info] *)
Record container_mount_info : Type := {
  m_source : string;
  m_dest : string;
  m_mode : string;
  m_rdwr : bool;
  m_propagation : string;
}.

Record sinsp_container_info : Type := {
  m_id : string;
  m_full_id : string;
  m_name : string;
  m_image : string;
  m_imagerepo : string;
  m_imagetag : string;
  m_imagedigest : string;
  m_type : sinsp_container_type;
  m_labels : gmap string string;
  m_mounts : list container_mount_info;
  m_env : list string;
  m_memory_limit : Z;
  m_cpu_shares : Z;
  m_cpu_quota : Z;
  m_cpu_period : Z;
  m_cpuset_cpu_count : Z;
  m_lookup : sinsp_container_lookup.state;
}.

(** [libsinsp::cgroup_limits] *)
Module cgroup_limits.

Record cgroup_limits_key : Type := {
  m_container_id : string;
  m_cpu_cgroup : string;
  m_mem_cgroup : string;
  m_cpuset_cgroup : string;
}.

Record cgroup_limits_value : Type := {
  m_cpu_shares : Z;
  m_cpu_quota : Z;
  m_cpu_period : Z;
  m_memory_limit : Z;
  m_cpuset_cpu_count : Z;
}.

End cgroup_limits.

(** Modelled from the spec: [sinsp_container_info] is declared in a header,
    not in containerd.cpp; "a record is constructed fresh per resolution
    attempt" and its lookup state is "set to successful only after the record
    is fully assembled".  Strings, labels, mounts and env start empty, the
    limits start at the defaults of [cgroup_limits_value]. *)
Definition sinsp_container_info_new : sinsp_container_info := {|
  m_id := EmptyString;
  m_full_id := EmptyString;
  m_name := EmptyString;
  m_image := EmptyString;
  m_imagerepo := EmptyString;
  m_imagetag := EmptyString;
  m_imagedigest := EmptyString;
  m_type := CT_UNKNOWN;
  m_labels := ∅;
  m_mounts := [];
  m_env := [];
  m_memory_limit := 0;
  m_cpu_shares := 1024;
  m_cpu_quota := 0;
  m_cpu_period := 100000;
  m_cpuset_cpu_count := 0;
  m_lookup := sinsp_container_lookup.STARTED;
|}.

(** Assignments to the members of a record. *)
Definition set_m_id (v : string) (c : sinsp_container_info) : sinsp_container_info :=
  {| m_id := v; m_full_id := m_full_id c; m_name := m_name c; m_image := m_image c;
     m_imagerepo := m_imagerepo c; m_imagetag := m_imagetag c;
     m_imagedigest := m_imagedigest c; m_type := m_type c; m_labels := m_labels c;
     m_mounts := m_mounts c; m_env := m_env c; m_memory_limit := m_memory_limit c;
     m_cpu_shares := m_cpu_shares c; m_cpu_quota := m_cpu_quota c;
     m_cpu_period := m_cpu_period c; m_cpuset_cpu_count := m_cpuset_cpu_count c;
     m_lookup := m_lookup c |}.

Definition set_m_full_id (v : string) (c : sinsp_container_info) : sinsp_container_info :=
  {| m_id := m_id c; m_full_id := v; m_name := m_name c; m_image := m_image c;
     m_imagerepo := m_imagerepo c; m_imagetag := m_imagetag c;
     m_imagedigest := m_imagedigest c; m_type := m_type c; m_labels := m_labels c;
     m_mounts := m_mounts c; m_env := m_env c; m_memory_limit := m_memory_limit c;
     m_cpu_shares := m_cpu_shares c; m_cpu_quota := m_cpu_quota c;
     m_cpu_period := m_cpu_period c; m_cpuset_cpu_count := m_cpuset_cpu_count c;
     m_lookup := m_lookup c |}.

Definition set_m_name (v : string) (c : sinsp_container_info) : sinsp_container_info :=
  {| m_id := m_id c; m_full_id := m_full_id c; m_name := v; m_image := m_image c;
     m_imagerepo := m_imagerepo c; m_imagetag := m_imagetag c;
     m_imagedigest := m_imagedigest c; m_type := m_type c; m_labels := m_labels c;
     m_mounts := m_mounts c; m_env := m_env c; m_memory_limit := m_memory_limit c;
     m_cpu_shares := m_cpu_shares c; m_cpu_quota := m_cpu_quota c;
     m_cpu_period := m_cpu_period c; m_cpuset_cpu_count := m_cpuset_cpu_count c;
     m_lookup := m_lookup c |}.

Definition set_m_image (v : string) (c : sinsp_container_info) : sinsp_container_info :=
  {| m_id := m_id c; m_full_id := m_full_id c; m_name := m_name c; m_image := v;
     m_imagerepo := m_imagerepo c; m_imagetag := m_imagetag c;
     m_imagedigest := m_imagedigest c; m_type := m_type c; m_labels := m_labels c;
     m_mounts := m_mounts c; m_env := m_env c; m_memory_limit := m_memory_limit c;
     m_cpu_shares := m_cpu_shares c; m_cpu_quota := m_cpu_quota c;
     m_cpu_period := m_cpu_period c; m_cpuset_cpu_count := m_cpuset_cpu_count c;
     m_lookup := m_lookup c |}.

Definition set_m_imagerepo (v : string) (c : sinsp_container_info) : sinsp_container_info :=
  {| m_id := m_id c; m_full_id := m_full_id c; m_name := m_name c; m_image := m_image c;
     m_imagerepo := v; m_imagetag := m_imagetag c;
     m_imagedigest := m_imagedigest c; m_type := m_type c; m_labels := m_labels c;
     m_mounts := m_mounts c; m_env := m_env c; m_memory_limit := m_memory_limit c;
     m_cpu_shares := m_cpu_shares c; m_cpu_quota := m_cpu_quota c;
     m_cpu_period := m_cpu_period c; m_cpuset_cpu_count := m_cpuset_cpu_count c;
     m_lookup := m_lookup c |}.

Definition set_m_imagetag (v : string) (c : sinsp_container_info) : sinsp_container_info :=
  {| m_id := m_id c; m_full_id := m_full_id c; m_name := m_name c; m_image := m_image c;
     m_imagerepo := m_imagerepo c; m_imagetag := v;
     m_imagedigest := m_imagedigest c; m_type := m_type c; m_labels := m_labels c;
     m_mounts := m_mounts c; m_env := m_env c; m_memory_limit := m_memory_limit c;
     m_cpu_shares := m_cpu_shares c; m_cpu_quota := m_cpu_quota c;
     m_cpu_period := m_cpu_period c; m_cpuset_cpu_count := m_cpuset_cpu_count c;
     m_lookup := m_lookup c |}.

Definition set_m_imagedigest (v : string) (c : sinsp_container_info)
  : sinsp_container_info :=
  {| m_id := m_id c; m_full_id := m_full_id c; m_name := m_name c; m_image := m_image c;
     m_imagerepo := m_imagerepo c; m_imagetag := m_imagetag c;
     m_imagedigest := v; m_type := m_type c; m_labels := m_labels c;
     m_mounts := m_mounts c; m_env := m_env c; m_memory_limit := m_memory_limit c;
     m_cpu_shares := m_cpu_shares c; m_cpu_quota := m_cpu_quota c;
     m_cpu_period := m_cpu_period c; m_cpuset_cpu_count := m_cpuset_cpu_count c;
     m_lookup := m_lookup c |}.

Definition set_m_type (v : sinsp_container_type) (c : sinsp_container_info)
  : sinsp_container_info :=
  {| m_id := m_id c; m_full_id := m_full_id c; m_name := m_name c; m_image := m_image c;
     m_imagerepo := m_imagerepo c; m_imagetag := m_imagetag c;
     m_imagedigest := m_imagedigest c; m_type := v; m_labels := m_labels c;
     m_mounts := m_mounts c; m_env := m_env c; m_memory_limit := m_memory_limit c;
     m_cpu_shares := m_cpu_shares c; m_cpu_quota := m_cpu_quota c;
     m_cpu_period := m_cpu_period c; m_cpuset_cpu_count := m_cpuset_cpu_count c;
     m_lookup := m_lookup c |}.

Definition set_m_labels (v : gmap string string) (c : sinsp_container_info)
  : sinsp_container_info :=
  {| m_id := m_id c; m_full_id := m_full_id c; m_name := m_name c; m_image := m_image c;
     m_imagerepo := m_imagerepo c; m_imagetag := m_imagetag c;
     m_imagedigest := m_imagedigest c; m_type := m_type c; m_labels := v;
     m_mounts := m_mounts c; m_env := m_env c; m_memory_limit := m_memory_limit c;
     m_cpu_shares := m_cpu_shares c; m_cpu_quota := m_cpu_quota c;
     m_cpu_period := m_cpu_period c; m_cpuset_cpu_count := m_cpuset_cpu_count c;
     m_lookup := m_lookup c |}.

Definition set_m_mounts (v : list container_mount_info) (c : sinsp_container_info)
  : sinsp_container_info :=
  {| m_id := m_id c; m_full_id := m_full_id c; m_name := m_name c; m_image := m_image c;
     m_imagerepo := m_imagerepo c; m_imagetag := m_imagetag c;
     m_imagedigest := m_imagedigest c; m_type := m_type c; m_labels := m_labels c;
     m_mounts := v; m_env := m_env c; m_memory_limit := m_memory_limit c;
     m_cpu_shares := m_cpu_shares c; m_cpu_quota := m_cpu_quota c;
     m_cpu_period := m_cpu_period c; m_cpuset_cpu_count := m_cpuset_cpu_count c;
     m_lookup := m_lookup c |}.

Definition set_m_env (v : list string) (c : sinsp_container_info) : sinsp_container_info :=
  {| m_id := m_id c; m_full_id := m_full_id c; m_name := m_name c; m_image := m_image c;
     m_imagerepo := m_imagerepo c; m_imagetag := m_imagetag c;
     m_imagedigest := m_imagedigest c; m_type := m_type c; m_labels := m_labels c;
     m_mounts := m_mounts c; m_env := v; m_memory_limit := m_memory_limit c;
     m_cpu_shares := m_cpu_shares c; m_cpu_quota := m_cpu_quota c;
     m_cpu_period := m_cpu_period c; m_cpuset_cpu_count := m_cpuset_cpu_count c;
     m_lookup := m_lookup c |}.

(** The five assignments from a [cgroup_limits_value]. *)
Definition set_limits (l : cgroup_limits.cgroup_limits_value) (c : sinsp_container_info)
  : sinsp_container_info :=
  {| m_id := m_id c; m_full_id := m_full_id c; m_name := m_name c; m_image := m_image c;
     m_imagerepo := m_imagerepo c; m_imagetag := m_imagetag c;
     m_imagedigest := m_imagedigest c; m_type := m_type c; m_labels := m_labels c;
     m_mounts := m_mounts c; m_env := m_env c;
     m_memory_limit := cgroup_limits.m_memory_limit l;
     m_cpu_shares := cgroup_limits.m_cpu_shares l;
     m_cpu_quota := cgroup_limits.m_cpu_quota l;
     m_cpu_period := cgroup_limits.m_cpu_period l;
     m_cpuset_cpu_count := cgroup_limits.m_cpuset_cpu_count l;
     m_lookup := m_lookup c |}.

Definition set_lookup_status (v : sinsp_container_lookup.state) (c : sinsp_container_info)
  : sinsp_container_info :=
  {| m_id := m_id c; m_full_id := m_full_id c; m_name := m_name c; m_image := m_image c;
     m_imagerepo := m_imagerepo c; m_imagetag := m_imagetag c;
     m_imagedigest := m_imagedigest c; m_type := m_type c; m_labels := m_labels c;
     m_mounts := m_mounts c; m_env := m_env c; m_memory_limit := m_memory_limit c;
     m_cpu_shares := m_cpu_shares c; m_cpu_quota := m_cpu_quota c;
     m_cpu_period := m_cpu_period c; m_cpuset_cpu_count := m_cpuset_cpu_count c;
     m_lookup := v |}.

(** ** Processes *)

(** [sinsp_threadinfo]: the container id the engine assigns and the cgroup
    set (controller, path) the matcher and [get_cgroup] read. *)
Record sinsp_threadinfo : Type := {
  m_container_id : string;
  cgroups : list (string * string);
}.

Definition set_m_container_id (v : string) (t : sinsp_threadinfo) : sinsp_threadinfo :=
  {| m_container_id := v; cgroups := cgroups t |}.

(** [libsinsp::runc::cgroup_layout] *)
Module runc.
Record cgroup_layout : Type := { prefix : string; suffix : string }.
End runc.

(** The table ends at the [{nullptr, nullptr}] sentinel, which is the end of
    the list here. *)
Definition CONTAINERD_CGROUP_LAYOUT : list runc.cgroup_layout :=
  [ {| runc.prefix := "/default/"; runc.suffix := EmptyString |} ].

Definition CONTAINERD_SOCKETS : list string :=
  [ "/run/host-containerd/containerd.sock";      (* bottlerocket host containers socket *)
    "/run/containerd/runtime2/containerd.sock"   (* tmp *)
  ]%string.

(** [<sys/stat.h>] *)
Definition S_IFMT : Z := 0xF000.      (* 0170000 *)
Definition S_IFSOCK : Z := 0xC000.    (* 0140000 *)
Definition S_IFREG : Z := 0x8000.     (* 0100000 *)

(** ** The container cache *)

(** Modelled from the spec: [container_cache_interface] is declared in a
    header, not in containerd.cpp; the cache is "the only component with
    cross-process shared mutable state" and it "deduplicates container
    records by identity and notifies observers of newly published
    containers".  The three members the engine calls, on a cache state [C]:
    [should_lookup] only reads, the other two change the cache and leave the
    process they are given as it is. *)
Class container_cache_interface (C : Type) : Type := {
  should_lookup : C -> string -> sinsp_container_type -> bool;
  add_container : C -> sinsp_container_info -> sinsp_threadinfo -> C;
  notify_new_container : C -> sinsp_container_info -> sinsp_threadinfo -> C;
}.

(** ** Effects *)

Module sinsp_logger.
Inductive severity : Type :=
| SEV_NOTICE
| SEV_DEBUG.
End sinsp_logger.

(** What the engine does to its collaborators, in order. *)
Inductive event : Type :=
| EvLog (sev : sinsp_logger.severity) (msg : string)
| EvList (target : string) (ctx : grpc.ClientContext)
         (req : ContainerdService.ListContainersRequest)
| EvLimits (key : cgroup_limits.cgroup_limits_key)
| EvAddContainer (info : sinsp_container_info) (tinfo : sinsp_threadinfo)
| EvNotifyNewContainer (info : sinsp_container_info) (tinfo : sinsp_threadinfo).

Definition is_publication (e : event) : bool :=
  match e with EvAddContainer _ _ => true | _ => false end.

Definition is_notification (e : event) : bool :=
  match e with EvNotifyNewContainer _ _ => true | _ => false end.

Definition is_limits_query (e : event) : bool :=
  match e with EvLimits _ => true | _ => false end.

Definition count_events (p : event -> bool) (tr : list event) : nat :=
  length (List.filter p tr).

(** A loop over a list whose body may fault. *)
Fixpoint foldM {A B} (f : A -> B -> outcome A) (a : A) (l : list B) : outcome A :=
  match l with
  | [] => Ret a
  | b :: l' => a' ← f a b; foldM f a' l'
  end.

(** What a call of [resolve] leaves: the value returned, the process as the
    call leaves it, and the last value of the local [container] (kept to
    state what was assembled; the code drops it on return). *)
Record resolve_result : Type := {
  returned : bool;
  tinfo_after : sinsp_threadinfo;
  container_local : sinsp_container_info;
}.

(** ** The engine *)

Section Engine.

(** The cache behind [container_cache()]. *)
Context {C : Type} `{!container_cache_interface C}.

(** The host, as the engine reaches it: [scap_get_host_root()], [stat(2)]
    (the [st_mode] of a path, or nothing when the call fails) and
    [sinsp_container_info::m_container_label_max_length]. *)
Variable scap_get_host_root : string.
Variable stat : string -> option Z.
Variable m_container_label_max_length : nat.

(** Modelled from the spec: the matcher is defined in runc.cpp;
    "given a process's cgroup paths and a layout table, extracts a truncated
    container identifier and the matched cgroup path, or signals no-match". *)
Variable matches_runc_cgroups :
  list (string * string) -> list runc.cgroup_layout -> option (string * string).

(** Modelled from the spec: [sinsp_threadinfo::get_cgroup] is defined with
    the thread table; the "per-controller cgroup paths for the process". *)
Variable get_cgroup : list (string * string) -> string -> string.

(** Modelled from the spec: [get_cgroup_resource_limits] is defined with
    the cgroup limits; "given per-controller cgroup paths, computes memory limit, CPU
    shares/quota/period, and cpuset CPU count".  The value is what the call
    leaves in [limits]. *)
Variable get_cgroup_resource_limits :
  cgroup_limits.cgroup_limits_key -> cgroup_limits.cgroup_limits_value.

(** [Json::Reader::parse]: whether the document parsed, and the root value
    the reader leaves behind. *)
Variable reader_parse : string -> bool * Json.Value.

(** The state the engine runs in: the cache, and the trace of what was done. *)
Record world : Type := {
  w_cache : C;
  w_trace : list event;
}.

(** Computations that read and change the world and that may fault. *)
Definition M (A : Type) : Type := world -> outcome (A * world).

#[global] Instance M_ret : MRet M := fun A a w => Ret (a, w).
#[global] Instance M_bind : MBind M := fun A B k m w =>
  match m w with
  | Ret (a, w') => k a w'
  | Fault f => Fault f
  end.

Definition lift {A} (o : outcome A) : M A := fun w =>
  match o with
  | Ret a => Ret (a, w)
  | Fault f => Fault f
  end.

Definition emit (e : event) : M unit := fun w =>
  Ret (tt, {| w_cache := w_cache w; w_trace := w_trace w ++ [e] |}).

(** [w] with [evs] done after it. *)
Definition add_trace (w : world) (evs : list event) : world :=
  {| w_cache := w_cache w; w_trace := w_trace w ++ evs |}.

(** Events that touch neither the cache nor the limits. *)
Definition is_quiet (e : event) : bool :=
  negb (is_publication e || is_notification e || is_limits_query e).

Definition read_cache {A} (f : C -> A) : M A := fun w => Ret (f (w_cache w), w).

Definition update_cache (f : C -> C) : M unit := fun w =>
  Ret (tt, {| w_cache := f (w_cache w); w_trace := w_trace w |}).

(** [libsinsp_logger()->format(sev, ...)], with the message formatted. *)
Definition log (sev : sinsp_logger.severity) (msg : string) : M unit :=
  emit (EvLog sev msg).

(** [m_stub->List(&context, req, &resp)] *)
Definition Stub_List (daemon : containerd_daemon) (stub : Stub)
    (ctx : grpc.ClientContext) (req : ContainerdService.ListContainersRequest)
  : M (grpc.Status * ContainerdService.ListContainersResponse) :=
  _ ← emit (EvList (target stub) ctx req);
  mret (daemon (target stub) ctx req).

(** *** containerd_interface *)

Record containerd_interface : Type := {
  m_stub : option Stub;     (* std::unique_ptr<Containers::Stub> *)
}.

Definition is_ok (this : containerd_interface) : bool :=
  match m_stub this with Some _ => true | None => false end.

(** The [default] namespace is mandatory to query the containers. *)
Definition default_namespace_context : grpc.ClientContext :=
  {| grpc.metadata := [("containerd-namespace", "default")]%string |}.

(** [containerd_interface::containerd_interface(socket_path)] *)
Definition containerd_interface_new (daemon : containerd_daemon) (socket_path : string)
  : M containerd_interface :=
  let stub := {| target := "unix://" +:+ socket_path |} in
  let req := {| ContainerdService.filters := [] |} in
  '(status, resp) ← Stub_List daemon stub default_namespace_context req;
  if negb (grpc.ok status) then
    _ ← log sinsp_logger.SEV_NOTICE
          ("containerd (" +:+ socket_path +:+
           "): containerd runtime returned an error after trying to list containerd: "
           +:+ grpc.error_message status);
    mret {| m_stub := None |}
  else
    mret {| m_stub := Some stub |}.

(** The request of [list_container_resp]: to match the container using a
    truncated containerd id we need to use a match filter (~=). *)
Definition filter_request (container_id : string)
  : ContainerdService.ListContainersRequest :=
  {| ContainerdService.filters := ["id~=" +:+ container_id] |}.

(** [containerd_interface::list_container_resp(container_id, resp)] *)
Definition list_container_resp (daemon : containerd_daemon)
    (this : containerd_interface) (container_id : string)
  : M (grpc.Status * ContainerdService.ListContainersResponse) :=
  let req := filter_request container_id in
  match m_stub this with
  | None => lift (Fault NullDereference)
  | Some stub => Stub_List daemon stub default_namespace_context req
  end.

(** *** containerd *)

Record containerd : Type := {
  m_interface : option containerd_interface;   (* std::unique_ptr *)
}.

(** The body of the loop of the constructor for one candidate [p]; the result
    is the [m_interface] the iteration leaves. *)
Definition containerd_try_socket (daemon : containerd_daemon)
    (m_interface : option containerd_interface) (p : string)
  : M (option containerd_interface) :=
  if Str.empty p then mret m_interface
  else
    let socket_path := scap_get_host_root +:+ p in
    match stat socket_path with
    | None => mret m_interface
    | Some st_mode =>
        if negb (Z.land st_mode S_IFMT =? S_IFSOCK) then mret m_interface
        else
          i ← containerd_interface_new daemon socket_path;
          if negb (is_ok i) then mret None
          else mret (Some i)
    end.

(** [for(const auto &p : CONTAINERD_SOCKETS)] *)
Fixpoint containerd_socket_loop (daemon : containerd_daemon)
    (sockets : list string) (m_interface : option containerd_interface)
  : M (option containerd_interface) :=
  match sockets with
  | [] => mret m_interface
  | p :: rest =>
      m_interface' ← containerd_try_socket daemon m_interface p;
      containerd_socket_loop daemon rest m_interface'
  end.

(** [containerd::containerd(cache)], over a list of candidates. *)
Definition containerd_new_from (daemon : containerd_daemon) (sockets : list string)
  : M containerd :=
  i ← containerd_socket_loop daemon sockets None;
  mret {| m_interface := i |}.

Definition containerd_new (daemon : containerd_daemon) : M containerd :=
  containerd_new_from daemon CONTAINERD_SOCKETS.

(** The options of one mount: [readonly] and [mode] after the token [jopt]. *)
Definition mount_option_step (st : bool * string) (jopt : Json.Value)
  : outcome (bool * string) :=
  let '(readonly, mode) := st in
  opt ← Json.asString jopt;
  if String.eqb opt "ro" then mret (true, mode)
  else if Str.rfind opt "mode=" =? 0 then
    mode' ← Str.substr_from opt 5;
    mret (readonly, mode')
  else mret (readonly, mode).

(** The body of the loop over [spec["mounts"]]: the mount appended for [m]. *)
Definition parse_mount (spec m : Json.Value) : outcome container_mount_info :=
  options ← Json.member m "options";
  '(readonly, mode) ← foldM mount_option_step (false, EmptyString) (Json.elements options);
  source ← Json.member m "source" ≫= Json.asString;
  destination ← Json.member m "destination" ≫= Json.asString;
  linux ← Json.member spec "linux";
  propagation ← Json.member linux "rootfsPropagation" ≫= Json.asString;
  mret {| m_source := source; m_dest := destination; m_mode := mode;
          m_rdwr := negb readonly; m_propagation := propagation |}.

Definition parse_mounts (spec : Json.Value) (m_mounts : list container_mount_info)
  : outcome (list container_mount_info) :=
  mounts ← Json.member spec "mounts";
  foldM (fun acc m => mnt ← parse_mount spec m; mret (acc ++ [mnt]))
        m_mounts (Json.elements mounts).

Definition parse_env (spec : Json.Value) (m_env : list string) : outcome (list string) :=
  process ← Json.member spec "process";
  envs ← Json.member process "env";
  foldM (fun acc env => e ← Json.asString env; mret (acc ++ [e]))
        m_env (Json.elements envs).

(** The loop over the labels of the descriptor. *)
Definition copy_labels (labels m_labels : gmap string string) : gmap string string :=
  filter (fun kv => (String.length kv.2 <= m_container_label_max_length)%nat) labels
  ∪ m_labels.

(** The part of [parse_containerd] that follows the checks of the answer:
    [container] filled from the one descriptor [c0]. *)
Definition fill_from_descriptor (c0 : ContainerdService.Container)
    (container : sinsp_container_info) (container_id : string)
  : outcome sinsp_container_info :=
  (* Usually the image has this form: `docker.io/library/ubuntu:22.04` *)
  let raw_image_splits := sinsp_split (ContainerdService.image c0) ":" in
  let container := set_m_id container_id container in
  let container := set_m_full_id (ContainerdService.id c0) container in
  (* We assume that the last `/`-separated field is the image *)
  s0 ← vector_at raw_image_splits 0;
  img ← Str.substr_from s0 (Str.size_t_add (Str.rfind s0 "/") 1);
  let container := set_m_image img container in
  (* and the first part is the repo *)
  repo ← Str.substr s0 0 (Str.rfind s0 "/");
  let container := set_m_imagerepo repo container in
  tag ← vector_at raw_image_splits 1;
  let container := set_m_imagetag tag container in
  let container := set_m_imagedigest EmptyString container in
  let container := set_m_type CT_CONTAINERD container in
  (* Retrieve the labels. *)
  let container :=
    set_m_labels (copy_labels (ContainerdService.labels c0) (m_labels container))
                 container in
  (* The spec field of the response is just a raw json. *)
  let '(_, spec) := reader_parse (ContainerdService.value (ContainerdService.spec c0)) in
  (* Retrieve the mounts. *)
  mounts ← parse_mounts spec (m_mounts container);
  let container := set_m_mounts mounts container in
  (* Retrieve the env. *)
  env ← parse_env spec (m_env container);
  let container := set_m_env env container in
  mret container.

(** [containerd::parse_containerd(container, container_id)]: the value
    returned and [container] as the call leaves it. *)
Definition parse_containerd (daemon : containerd_daemon) (this : containerd)
    (container : sinsp_container_info) (container_id : string)
  : M (bool * sinsp_container_info) :=
  (* given the truncated container id, the full container id needs to be
     retrieved from containerd. *)
  match m_interface this with
  | None => lift (Fault NullDereference)
  | Some interface =>
    '(status, resp) ← list_container_resp daemon interface container_id;
    if negb (grpc.ok status) then
      _ ← log sinsp_logger.SEV_DEBUG
            ("containerd (" +:+ m_id container +:+
             "): ListContainerResponse status error message: (" +:+
             grpc.error_message status +:+ ")");
      mret (false, container)
    else
      let containers := ContainerdService.containers resp in
      if (length containers =? 0)%nat then
        _ ← log sinsp_logger.SEV_DEBUG
              ("containerd (" +:+ m_id container +:+
               "): ListContainerResponse status error message: " +:+
               "(container id has no match)");
        mret (false, container)
      else if (1 <? length containers)%nat then
        _ ← log sinsp_logger.SEV_DEBUG
              ("containerd (" +:+ m_id container +:+
               "): ListContainerResponse status error message: " +:+
               "(container id has more than one match)");
        mret (false, container)
      else
        c0 ← lift (vector_at containers 0);
        container ← lift (fill_from_descriptor c0 container container_id);
        mret (true, container)
  end.

(** [containerd::resolve(tinfo, query_os_for_missing_info)] *)
Definition resolve (daemon : containerd_daemon) (this : containerd)
    (tinfo : sinsp_threadinfo) (query_os_for_missing_info : bool)
  : M resolve_result :=
  let container := sinsp_container_info_new in
  match matches_runc_cgroups (cgroups tinfo) CONTAINERD_CGROUP_LAYOUT with
  | None =>
      mret {| returned := false; tinfo_after := tinfo; container_local := container |}
  | Some (container_id, cgroup) =>
      '(parsed, container) ← parse_containerd daemon this container container_id;
      if negb parsed then
        mret {| returned := false; tinfo_after := tinfo; container_local := container |}
      else
        let tinfo := set_m_container_id container_id tinfo in
        let key :=
          {| cgroup_limits.m_container_id := m_id container;
             cgroup_limits.m_cpu_cgroup := get_cgroup (cgroups tinfo) "cpu";
             cgroup_limits.m_mem_cgroup := get_cgroup (cgroups tinfo) "memory";
             cgroup_limits.m_cpuset_cgroup := get_cgroup (cgroups tinfo) "cpuset" |} in
        _ ← emit (EvLimits key);
        let limits := get_cgroup_resource_limits key in
        let container := set_limits limits container in
        read_cache (fun c => should_lookup c (m_id container) CT_CONTAINERD)
        ≫= fun lookup : bool =>
        if lookup then
          let container := set_m_name (m_id container) container in
          let container := set_lookup_status sinsp_container_lookup.SUCCESSFUL container in
          _ ← emit (EvAddContainer container tinfo);
          _ ← update_cache (fun c => add_container c container tinfo);
          _ ← emit (EvNotifyNewContainer container tinfo);
          _ ← update_cache (fun c => notify_new_container c container tinfo);
          mret {| returned := true; tinfo_after := tinfo; container_local := container |}
        else
          mret {| returned := true; tinfo_after := tinfo; container_local := container |}
  end.

(** *** Notions of the statements *)

(** The channel the engine ended up with. *)
Definition bound_target (this : containerd) : option string :=
  interface ← m_interface this;
  stub ← m_stub interface;
  Some (target stub).

(** [path] exists as a filesystem socket. *)
Definition is_socket (path : string) : bool :=
  match stat path with
  | Some st_mode => Z.land st_mode S_IFMT =? S_IFSOCK
  | None => false
  end.

(** The candidate [p] is not empty and exists, under the host root, as a
    socket. *)
Definition is_socket_candidate (p : string) : bool :=
  negb (Str.empty p) && is_socket (scap_get_host_root +:+ p).

(** The first list call on the channel to [socket_path] succeeds. *)
Definition channel_ok (daemon : containerd_daemon) (socket_path : string) : bool :=
  grpc.ok (daemon ("unix://" +:+ socket_path) default_namespace_context
                  {| ContainerdService.filters := [] |}).1.

(** The candidate [p] is a socket whose channel answers. *)
Definition is_usable_candidate (daemon : containerd_daemon) (p : string) : bool :=
  is_socket_candidate p && channel_ok daemon (scap_get_host_root +:+ p).

(** SocketDiscovery as the specification words it: "return the first path
    that exists as a filesystem socket", empty entries skipped. *)
Fixpoint first_socket (sockets : list string) : option string :=
  match sockets with
  | [] => None
  | p :: rest =>
      if is_socket_candidate p then Some (scap_get_host_root +:+ p)
      else first_socket rest
  end.

(** The key [resolve] queries the limits with. *)
Definition limits_key (container_id : string) (tinfo : sinsp_threadinfo)
  : cgroup_limits.cgroup_limits_key :=
  {| cgroup_limits.m_container_id := container_id;
     cgroup_limits.m_cpu_cgroup := get_cgroup (cgroups tinfo) "cpu";
     cgroup_limits.m_mem_cgroup := get_cgroup (cgroups tinfo) "memory";
     cgroup_limits.m_cpuset_cgroup := get_cgroup (cgroups tinfo) "cpuset" |}.

(** The limits of a record, as one value. *)
Definition limits_of (c : sinsp_container_info) : cgroup_limits.cgroup_limits_value :=
  {| cgroup_limits.m_cpu_shares := m_cpu_shares c;
     cgroup_limits.m_cpu_quota := m_cpu_quota c;
     cgroup_limits.m_cpu_period := m_cpu_period c;
     cgroup_limits.m_memory_limit := m_memory_limit c;
     cgroup_limits.m_cpuset_cpu_count := m_cpuset_cpu_count c |}.

End Engine.

(** ** Collaborators for the examples *)

(** Modelled from the spec: the container cache is the container manager
    of libsinsp, not in containerd.cpp; it
    "deduplicates container records by identity and notifies observers of
    newly published containers", and an identity that was published is
    "already resolved".  The records in publication order and the identities
    notified. *)
Record list_cache : Type := {
  lc_containers : list sinsp_container_info;
  lc_notified : list string;
}.

Definition list_cache_empty : list_cache :=
  {| lc_containers := []; lc_notified := [] |}.

Definition list_cache_resolved (c : list_cache) (id : string) (ty : sinsp_container_type)
  : bool :=
  existsb (fun i => String.eqb (m_id i) id && bool_decide (m_type i = ty))
          (lc_containers c).

#[global] Instance list_cache_interface : container_cache_interface list_cache := {|
  should_lookup c id ty := negb (list_cache_resolved c id ty);
  add_container c info tinfo :=
    {| lc_containers := lc_containers c ++ [info]; lc_notified := lc_notified c |};
  notify_new_container c info tinfo :=
    {| lc_containers := lc_containers c; lc_notified := lc_notified c ++ [m_id info] |};
|}.

(** Modelled from the spec: the daemon is reached over gRPC; "filters use the
    syntax `id~=<value>` denoting substring containment match on identifier".
    A daemon that holds [store] and answers on the channels to [live]. *)
Definition filter_matches (filter_ : string) (c : ContainerdService.Container) : bool :=
  if String.prefix "id~=" filter_
  then Str.is_infix (Str.drop 4 filter_) (ContainerdService.id c)
  else false.

Definition store_daemon (live : list string) (store : list ContainerdService.Container)
  : containerd_daemon :=
  fun target ctx req =>
    if existsb (String.eqb target) live then
      (grpc.OK,
       {| ContainerdService.containers :=
            List.filter (fun c => forallb (fun f => filter_matches f c)
                                          (ContainerdService.filters req)) store |})
    else
      (grpc.Error "failed to connect to all addresses",
       {| ContainerdService.containers := [] |}).

(** A matcher for the examples: the first cgroup path with the prefix of a
    layout in it gives, as id, the twelve characters after the prefix. *)
Definition example_match_one (layout : list runc.cgroup_layout) (cgroup : string)
  : option (string * string) :=
  match layout with
  | l :: _ =>
      let pos := Str.rfind cgroup (runc.prefix l) in
      if pos =? Str.npos then None
      else Some (Str.take 12 (Str.drop (Z.to_nat pos + String.length (runc.prefix l)) cgroup),
                 cgroup)
  | [] => None
  end.

Fixpoint example_matcher (cgroups : list (string * string))
    (layout : list runc.cgroup_layout) : option (string * string) :=
  match cgroups with
  | [] => None
  | (_, cgroup) :: rest =>
      match example_match_one layout cgroup with
      | Some r => Some r
      | None => example_matcher rest layout
      end
  end.

Fixpoint example_get_cgroup (cgroups : list (string * string)) (subsys : string) : string :=
  match cgroups with
  | [] => "/"
  | (s, cgroup) :: rest =>
      if String.eqb s subsys then cgroup else example_get_cgroup rest subsys
  end.

Definition example_limits (key : cgroup_limits.cgroup_limits_key)
  : cgroup_limits.cgroup_limits_value :=
  {| cgroup_limits.m_cpu_shares := 512;
     cgroup_limits.m_cpu_quota := 50000;
     cgroup_limits.m_cpu_period := 100000;
     cgroup_limits.m_memory_limit := 268435456;
     cgroup_limits.m_cpuset_cpu_count := 2 |}.

(** JSON text for the examples. *)
Definition quoted (s : string) : string :=
  let dq := String (Ascii.ascii_of_nat 34) EmptyString in
  dq +:+ s +:+ dq.

Definition json_string_array (l : list string) : string :=
  "[" +:+ String.concat "," (quoted <$> l) +:+ "]".

(** A specification document with one mount and the root propagation. *)
Definition spec_document (source destination : string) (options : list string)
    (propagation : string) (env : list string) : string :=
  "{" +:+ quoted "mounts" +:+ ":[{" +:+
    quoted "source" +:+ ":" +:+ quoted source +:+ "," +:+
    quoted "destination" +:+ ":" +:+ quoted destination +:+ "," +:+
    quoted "options" +:+ ":" +:+ json_string_array options +:+ "}]," +:+
  quoted "linux" +:+ ":{" +:+ quoted "rootfsPropagation" +:+ ":" +:+
    quoted propagation +:+ "}," +:+
  quoted "process" +:+ ":{" +:+ quoted "env" +:+ ":" +:+ json_string_array env +:+ "}}".

(** The value the reader builds for [spec_document]. *)
Definition spec_value (source destination : string) (options : list string)
    (propagation : string) (env : list string) : Json.Value :=
  Json.objectValue
    [ ("linux", Json.objectValue [("rootfsPropagation", Json.stringValue propagation)]);
      ("mounts", Json.arrayValue
         [ Json.objectValue
             [ ("destination", Json.stringValue destination);
               ("options", Json.arrayValue (Json.stringValue <$> options));
               ("source", Json.stringValue source) ] ]);
      ("process", Json.objectValue [("env", Json.arrayValue (Json.stringValue <$> env))])
    ]%string.

(** A reader for the examples: it knows the documents of [known], and any
    other text does not parse and leaves the root null. *)
Fixpoint table_reader (known : list (string * Json.Value)) (doc : string)
  : bool * Json.Value :=
  match known with
  | [] => (false, Json.nullValue)
  | (text, v) :: rest => if String.eqb text doc then (true, v) else table_reader rest doc
  end.

Definition doc_ro_mount : string :=
  spec_document "/host" "/mnt" ["ro"] "rprivate" ["PATH=/usr/bin"].

Definition doc_mode_mount : string :=
  spec_document "tmpfs" "/dev" ["nosuid"; "mode=0755,mode=0700"] "rprivate" [].

Definition example_reader : string -> bool * Json.Value :=
  table_reader
    [ (doc_ro_mount, spec_value "/host" "/mnt" ["ro"] "rprivate" ["PATH=/usr/bin"]);
      (doc_mode_mount,
       spec_value "tmpfs" "/dev" ["nosuid"; "mode=0755,mode=0700"] "rprivate" []) ]%string.

(** A file system for the examples: the paths that are sockets, the paths
    that are regular files; anything else is missing. *)
Definition example_stat (sockets files : list string) (path : string) : option Z :=
  if existsb (String.eqb path) sockets then Some (Z.lor S_IFSOCK 0x1ED)   (* 0755 *)
  else if existsb (String.eqb path) files then Some (Z.lor S_IFREG 0x1A4) (* 0644 *)
  else None.

Definition example_container (id image doc : string) : ContainerdService.Container :=
  {| ContainerdService.id := id;
     ContainerdService.image := image;
     ContainerdService.labels := ∅;
     ContainerdService.spec := {| ContainerdService.value := doc |} |}.

Definition example_process (cgroup : string) : sinsp_threadinfo :=
  {| m_container_id := EmptyString;
     cgroups := [("cpu", cgroup); ("memory", cgroup); ("cpuset", cgroup)]%string |}.

Definition example_world : world (C := list_cache) :=
  {| w_cache := list_cache_empty; w_trace := [] |}.

(** The two candidate sockets, and the channels to them. *)
Definition host_socket : string := "/run/host-containerd/containerd.sock".
Definition runtime2_socket : string := "/run/containerd/runtime2/containerd.sock".
Definition host_channel : string := "unix://" +:+ host_socket.
Definition runtime2_channel : string := "unix://" +:+ runtime2_socket.

(** An engine bound to the channel to [path]. *)
Definition bound_engine (path : string) : containerd :=
  {| m_interface := Some {| m_stub := Some {| target := "unix://" +:+ path |} |} |}.

(** A process of the container [3f2a9c1b7d4e], and one of no container. *)
Definition container_process : sinsp_threadinfo :=
  example_process "/default/3f2a9c1b7d4e".
Definition host_process : sinsp_threadinfo :=
  example_process "/system.slice/sshd.service".

(** Descriptors whose id starts with the truncated id.  The first has the
    usual image reference, the second one without [/]. *)
Definition ubuntu_container : ContainerdService.Container :=
  example_container "3f2a9c1b7d4e8a6f0b1c2d3e" "docker.io/library/ubuntu:22.04" doc_ro_mount.
Definition bare_image_container : ContainerdService.Container :=
  example_container "3f2a9c1b7d4e8a6f0b1c2d3e" "ubuntu:22.04" doc_ro_mount.

(** A descriptor whose id has the truncated id in it, not at its start. *)
Definition infix_container : ContainerdService.Container :=
  example_container "ab3f2a9c1b7d4e8a6f0b1c2d" "docker.io/library/ubuntu:22.04" doc_ro_mount.

(** A descriptor with the option [mode=0755,mode=0700] on its mount. *)
Definition mode_container : ContainerdService.Container :=
  example_container "3f2a9c1b7d4e8a6f0b1c2d3e" "docker.io/library/ubuntu:22.04"
                    doc_mode_mount.

(** A descriptor whose document is no JSON at all. *)
Definition garbage_container : ContainerdService.Container :=
  example_container "3f2a9c1b7d4e8a6f0b1c2d3e" "docker.io/library/ubuntu:22.04"
                    "not a json document".

(** [doc_ro_mount] cut before its last two braces.  JsonCpp's reader fills
    the root while it reads and keeps what it has built when the text ends
    too early: the parse fails and the root has the three members. *)
Definition doc_truncated : string :=
  Str.take (String.length doc_ro_mount - 2) doc_ro_mount.

Definition truncated_container : ContainerdService.Container :=
  example_container "3f2a9c1b7d4e8a6f0b1c2d3e" "docker.io/library/ubuntu:22.04"
                    doc_truncated.

Definition keeping_reader (doc : string) : bool * Json.Value :=
  if String.eqb doc doc_truncated
  then (false, spec_value "/host" "/mnt" ["ro"] "rprivate" ["PATH=/usr/bin"])
  else example_reader doc.

(** [resolve] with the collaborators of the examples. *)
Definition example_resolve (reader : string -> bool * Json.Value)
  : containerd_daemon -> containerd -> sinsp_threadinfo -> bool ->
    M (C := list_cache) resolve_result :=
  resolve 100 example_matcher example_get_cgroup example_limits reader.

(** Descriptors for more runs: one with a short and a long label, one whose
    image reference has no tag, one whose document is a JSON array. *)
Definition labelled_container : ContainerdService.Container :=
  {| ContainerdService.id := "3f2a9c1b7d4e8a6f0b1c2d3e";
     ContainerdService.image := "docker.io/library/ubuntu:22.04";
     ContainerdService.labels :=
       {[ "app" := "web"; "note" := "a value of more than ten characters" ]}%string;
     ContainerdService.spec := {| ContainerdService.value := doc_ro_mount |} |}.

Definition untagged_container : ContainerdService.Container :=
  example_container "3f2a9c1b7d4e8a6f0b1c2d3e" "ubuntu" doc_ro_mount.

Definition array_container : ContainerdService.Container :=
  example_container "3f2a9c1b7d4e8a6f0b1c2d3e" "docker.io/library/ubuntu:22.04" "[]".

Definition array_reader : string -> bool * Json.Value :=
  table_reader [("[]"%string, Json.arrayValue [])].

(** The value of a document with two mounts: a read-only bind of [/host] and
    a tmpfs with a mode. *)
Definition two_mounts_value : Json.Value :=
  Json.objectValue
    [ ("linux", Json.objectValue [("rootfsPropagation", Json.stringValue "rprivate")]);
      ("mounts", Json.arrayValue
         [ Json.objectValue
             [ ("destination", Json.stringValue "/mnt");
               ("options", Json.arrayValue [Json.stringValue "rbind"; Json.stringValue "ro"]);
               ("source", Json.stringValue "/host") ];
           Json.objectValue
             [ ("destination", Json.stringValue "/dev");
               ("options", Json.arrayValue [Json.stringValue "nosuid";
                                            Json.stringValue "mode=0755"]);
               ("source", Json.stringValue "tmpfs") ] ]);
      ("process", Json.objectValue [("env", Json.arrayValue [])])
    ]%string.

(** The list calls of a trace, in order: the channel, the context and the
    request of each. *)
Definition list_calls (tr : list event)
  : list (string * grpc.ClientContext * ContainerdService.ListContainersRequest) :=
  omap (fun e => match e with
                 | EvList target ctx req => Some (target, ctx, req)
                 | _ => None
                 end) tr.

(** * Properties *)

(** ** Strings *)

Lemma prefix_length (p s : string) :
  String.prefix p s = true -> (String.length p <= String.length s)%nat.
Proof.
  revert s; induction p as [|a p IH]; intros [|b s]; simpl; try lia; try discriminate.
  destruct (Ascii.ascii_dec a b); [|discriminate].
  intros H; apply IH in H; lia.
Qed.

Lemma rfind_from_bounds (pat s : string) (i j : nat) :
  Str.rfind_from pat s i = Some j ->
  (i <= j /\ j + String.length pat <= i + String.length s)%nat.
Proof.
  revert i; induction s as [|c s IH]; intros i; cbn [Str.rfind_from].
  - destruct pat; simpl; [|discriminate]. intros [= <-]; simpl; lia.
  - destruct (Str.rfind_from pat s (S i)) as [k|] eqn:E.
    + intros [= <-]. apply IH in E. cbn [String.length]. lia.
    + destruct (String.prefix pat (String c s)) eqn:P; [|discriminate].
      intros [= <-]. apply prefix_length in P. lia.
Qed.

Lemma rfind_from_no_char (c : ascii) (s : string) (i : nat) :
  Str.contains_char c s = false ->
  Str.rfind_from (String c EmptyString) s i = None.
Proof.
  revert i; induction s as [|d s IH]; intros i; simpl; [reflexivity|].
  destruct (Ascii.eqb c d) eqn:E; [discriminate|]. intros H.
  rewrite (IH (S i) H).
  destruct (Ascii.ascii_dec c d) as [->|]; [|reflexivity].
  rewrite Ascii.eqb_refl in E; discriminate.
Qed.

(** Without the character in it, a string has no last occurrence of it. *)
Lemma rfind_no_char (c : ascii) (s : string) :
  Str.contains_char c s = false -> Str.rfind s (String c EmptyString) = Str.npos.
Proof. intros H. unfold Str.rfind. now rewrite rfind_from_no_char. Qed.

Lemma rfind_range (s pat : string) :
  Str.rfind s pat = Str.npos \/
  (0 <= Str.rfind s pat /\ Str.rfind s pat + Str.size pat <= Str.size s).
Proof.
  unfold Str.rfind. destruct (Str.rfind_from pat s 0) as [j|] eqn:E; [right|now left].
  apply rfind_from_bounds in E. unfold Str.size. lia.
Qed.

Lemma size_nonneg (s : string) : 0 <= Str.size s.
Proof. unfold Str.size; lia. Qed.

(** [s.substr(s.rfind("/") + 1)] never throws. *)
Lemma substr_after_slash (s : string) :
  Str.substr_from s (Str.size_t_add (Str.rfind s "/") 1) =
  Ret (Str.substr_chars s (Str.size_t_add (Str.rfind s "/") 1) Str.npos).
Proof.
  unfold Str.substr_from, Str.substr.
  destruct (Z.ltb_spec (Str.size s) (Str.size_t_add (Str.rfind s "/") 1)) as [H|H];
    [exfalso|reflexivity].
  revert H. unfold Str.size_t_add.
  destruct (rfind_range s "/") as [->|[H0 H1]].
  - change ((Str.npos + 1) mod Str.size_t_modulus) with 0.
    intros H. pose proof (size_nonneg s). lia.
  - change (Str.size "/") with 1 in H1. intros H.
    assert (0 < Str.size_t_modulus) by reflexivity.
    pose proof (Z.mod_le (Str.rfind s "/" + 1) Str.size_t_modulus). lia.
Qed.

(** [s.substr(0, n)] never throws. *)
Lemma substr_from_start (s : string) (n : Z) :
  Str.substr s 0 n = Ret (Str.substr_chars s 0 n).
Proof.
  unfold Str.substr. pose proof (size_nonneg s).
  destruct (Z.ltb_spec (Str.size s) 0); [lia|reflexivity].
Qed.

Lemma take_all (s : string) (n : nat) :
  (String.length s <= n)%nat -> Str.take n s = s.
Proof.
  revert n; induction s as [|c s IH]; intros [|n]; simpl; try reflexivity; try lia.
  intros H. f_equal. apply IH. lia.
Qed.

(** With no [/] in [s], both slices of [parse_containerd] are all of [s]. *)
Lemma slices_without_slash (s : string) :
  Str.contains_char "/" s = false ->
  Str.size s <= Str.npos ->
  Str.substr_chars s (Str.size_t_add (Str.rfind s "/") 1) Str.npos = s /\
  Str.substr_chars s 0 (Str.rfind s "/") = s.
Proof.
  intros H Hs. rewrite (rfind_no_char _ _ H).
  change (Str.size_t_add Str.npos 1) with 0.
  unfold Str.substr_chars. simpl Str.drop.
  rewrite Z.sub_0_r, Z.min_r by exact Hs.
  split; apply take_all; unfold Str.size; lia.
Qed.

(** ** More on strings *)

Lemma append_cons (c : ascii) (a b : string) : String c a +:+ b = String c (a +:+ b).
Proof. reflexivity. Qed.

Lemma take_append (a b : string) : Str.take (String.length a) (a +:+ b) = a.
Proof.
  induction a as [|c a IH]; [now destruct b|].
  rewrite append_cons. cbn [String.length Str.take]. now rewrite IH.
Qed.

Lemma drop_append (a b : string) : Str.drop (String.length a) (a +:+ b) = b.
Proof.
  induction a as [|c a IH]; [reflexivity|].
  rewrite append_cons. cbn [String.length Str.drop]. exact IH.
Qed.

Lemma length_append (a b : string) :
  String.length (a +:+ b) = (String.length a + String.length b)%nat.
Proof.
  induction a as [|c a IH]; [reflexivity|].
  rewrite append_cons. cbn [String.length]. now rewrite IH.
Qed.

(** The last [c] of [repo ++ c ++ img], when [img] has none. *)
Lemma rfind_from_last_char (c : ascii) (repo img : string) (i : nat) :
  Str.contains_char c img = false ->
  Str.rfind_from (String c EmptyString) (repo +:+ String c img) i =
  Some (i + String.length repo)%nat.
Proof.
  intros Himg. revert i. induction repo as [|d repo IH]; intros i.
  - change (EmptyString +:+ String c img) with (String c img).
    cbn [Str.rfind_from String.length].
    rewrite (rfind_from_no_char c img (S i) Himg).
    cbn. destruct (Ascii.ascii_dec c c); [|congruence].
    destruct img; f_equal; lia.
  - rewrite append_cons. cbn [Str.rfind_from String.length]. rewrite IH. f_equal. lia.
Qed.

(** A pattern that does not occur is not found, one that occurs is. *)
Lemma rfind_from_absent (pat s : string) (i : nat) :
  Str.is_infix pat s = false -> Str.rfind_from pat s i = None.
Proof.
  revert i. induction s as [|c s IH]; intros i; cbn [Str.is_infix Str.rfind_from].
  - now destruct (String.prefix pat EmptyString).
  - destruct (String.prefix pat (String c s)); [discriminate|].
    intros H. now rewrite (IH _ H).
Qed.

Lemma rfind_from_present (pat s : string) (i : nat) :
  Str.is_infix pat s = true -> exists j, Str.rfind_from pat s i = Some j.
Proof.
  revert i. induction s as [|c s IH]; intros i; cbn [Str.is_infix Str.rfind_from].
  - destruct (String.prefix pat EmptyString); [eauto|discriminate].
  - destruct (Str.rfind_from pat s (S i)) as [j|] eqn:E; [eauto|].
    destruct (String.prefix pat (String c s)); [eauto|].
    intros H. destruct (IH (S i) H) as [j Hj]. congruence.
Qed.

(** [rfind] on a token that starts with [mode=]: 0 when the rest has no
    [mode=] in it, and a later place when it has. *)
Lemma rfind_mode_token (v : string) :
  (Str.is_infix "mode=" v = false -> Str.rfind ("mode=" +:+ v) "mode=" = 0) /\
  (Str.is_infix "mode=" v = true -> 5 <= Str.rfind ("mode=" +:+ v) "mode=").
Proof.
  unfold Str.rfind. rewrite !append_cons.
  change (EmptyString +:+ v) with v. cbn [Str.rfind_from]. split; intros H.
  - rewrite (rfind_from_absent _ _ 5 H). clear H. now destruct v.
  - destruct (rfind_from_present _ _ 5 H) as [j Hj]. rewrite Hj.
    apply rfind_from_bounds in Hj. lia.
Qed.

(** ** Mounts *)

Lemma rfind_zero_prefix (s pat : string) :
  Str.rfind s pat = 0 -> String.prefix pat s = true.
Proof.
  unfold Str.rfind. destruct (Str.rfind_from pat s 0) as [j|] eqn:E;
    [|intros H; vm_compute in H; discriminate].
  intros Hj. assert (j = 0%nat) as -> by lia. clear Hj.
  destruct s as [|c s]; cbn [Str.rfind_from] in E.
  - now destruct (String.prefix pat EmptyString).
  - destruct (Str.rfind_from pat s 1) as [k|] eqn:Ek.
    + apply rfind_from_bounds in Ek. injection E as ->. lia.
    + now destruct (String.prefix pat (String c s)).
Qed.

(** [opt.substr(5)] does not throw on a token [rfind] finds [mode=] in. *)
Lemma substr_mode_value (opt : string) :
  Str.rfind opt "mode=" = 0 ->
  Str.substr_from opt 5 = Ret (Str.substr_chars opt 5 Str.npos).
Proof.
  intros H. unfold Str.substr_from, Str.substr.
  destruct (rfind_range opt "mode=") as [Hn|[_ Hle]].
  - rewrite H in Hn. vm_compute in Hn. discriminate.
  - rewrite H in Hle. change (Str.size "mode=") with 5 in Hle.
    destruct (Z.ltb_spec (Str.size opt) 5); [lia|reflexivity].
Qed.

(** One token, when it is a string. *)
Lemma mount_option_step_string (readonly : bool) (mode opt : string) :
  mount_option_step (readonly, mode) (Json.stringValue opt) =
  Ret (if String.eqb opt "ro" then (true, mode)
       else if Str.rfind opt "mode=" =? 0
            then (readonly, Str.substr_chars opt 5 Str.npos)
            else (readonly, mode)).
Proof.
  unfold mount_option_step. cbn [Json.asString mbind outcome_bind mret outcome_ret].
  destruct (String.eqb opt "ro"); [reflexivity|].
  destruct (Z.eqb_spec (Str.rfind opt "mode=") 0) as [Hz|Hz]; [|reflexivity].
  now rewrite (substr_mode_value opt Hz).
Qed.

(** The options of a mount, when they are strings: the loop ends, the mount
    is read-only exactly when a token is [ro], and without a token that
    starts with [mode=] the mode stays as it was. *)
Lemma mount_options_loop (opts : list string) (readonly : bool) (mode : string) :
  exists mode',
    foldM mount_option_step (readonly, mode) (Json.stringValue <$> opts) =
    Ret (readonly || existsb (fun opt => String.eqb opt "ro") opts, mode') /\
    (forallb (fun opt => negb (String.prefix "mode=" opt)) opts = true -> mode' = mode).
Proof.
  revert readonly mode. induction opts as [|opt opts IH]; intros readonly mode.
  - exists mode. cbn. now rewrite orb_false_r.
  - cbn [fmap list_fmap foldM existsb forallb].
    rewrite mount_option_step_string. cbn [mbind outcome_bind].
    destruct (String.eqb opt "ro") eqn:Hro.
    + destruct (IH true mode) as (mode' & -> & Hmode).
      exists mode'. rewrite orb_true_r. split; [reflexivity|].
      intros [_ H]%andb_prop. now apply Hmode.
    + destruct (Z.eqb_spec (Str.rfind opt "mode=") 0) as [Hz|Hz].
      * destruct (IH readonly (Str.substr_chars opt 5 Str.npos)) as (mode' & -> & _).
        exists mode'. split; [reflexivity|].
        rewrite (rfind_zero_prefix opt "mode=" Hz). discriminate.
      * destruct (IH readonly mode) as (mode' & -> & Hmode).
        exists mode'. split; [reflexivity|].
        intros [_ H]%andb_prop. now apply Hmode.
Qed.

(** The propagation of a mount does not come from the mount. *)
Lemma parse_mount_propagation (spec m : Json.Value) (mnt : container_mount_info) :
  parse_mount spec m = Ret mnt ->
  exists linux field,
    Json.member spec "linux" = Ret linux /\
    Json.member linux "rootfsPropagation" = Ret field /\
    Json.asString field = Ret (m_propagation mnt).
Proof.
  unfold parse_mount.
  destruct (Json.member m "options") as [options|]; cbn [mbind outcome_bind]; [|discriminate].
  destruct (foldM _ _ _) as [[readonly mode]|]; cbn [mbind outcome_bind]; [|discriminate].
  destruct (Json.member m "source") as [source|]; cbn [mbind outcome_bind]; [|discriminate].
  destruct (Json.asString source) as [src|]; cbn [mbind outcome_bind]; [|discriminate].
  destruct (Json.member m "destination") as [dest|]; cbn [mbind outcome_bind]; [|discriminate].
  destruct (Json.asString dest) as [dst|]; cbn [mbind outcome_bind]; [|discriminate].
  destruct (Json.member spec "linux") as [linux|]; cbn [mbind outcome_bind]; [|discriminate].
  destruct (Json.member linux "rootfsPropagation") as [field|] eqn:Hfield;
    cbn [mbind outcome_bind]; [|discriminate].
  destruct (Json.asString field) as [prop|] eqn:Hprop;
    cbn [mbind outcome_bind]; [|discriminate].
  intros [= <-]. now exists linux, field.
Qed.

(** X17: the mounts are appended to the record in the order of the
    document, after the mounts the record had. *)
Lemma parse_mounts_order (spec mounts : Json.Value)
    (acc mnts : list container_mount_info) :
  Json.member spec "mounts" = Ret mounts ->
  Forall2 (fun m mnt => parse_mount spec m = Ret mnt) (Json.elements mounts) mnts ->
  parse_mounts spec acc = Ret (acc ++ mnts).
Proof.
  intros Hm Hall. unfold parse_mounts. rewrite Hm. cbn [mbind outcome_bind].
  revert acc. induction Hall as [|m mnt ms mnts Hp _ IH]; intros acc; cbn [foldM].
  - now rewrite app_nil_r.
  - rewrite Hp. cbn [mbind outcome_bind mret outcome_ret]. rewrite IH.
    now rewrite <- app_assoc.
Qed.

(** X1: a token [mode=<v>] that is a string sets the mode to [v] when [v]
    has no [mode=] in it, and is passed over, the mode staying as it was,
    when [v] has: the test is [opt.rfind("mode=") == 0], on the last
    occurrence. *)
Theorem mode_token_value (readonly : bool) (mode v : string) :
  Str.size v <= Str.npos ->
  mount_option_step (readonly, mode) (Json.stringValue ("mode=" +:+ v)) =
  Ret (readonly, if Str.is_infix "mode=" v then mode else v).
Proof.
  intros Hsize. rewrite mount_option_step_string.
  destruct (rfind_mode_token v) as [Habsent Hpresent].
  replace (String.eqb ("mode=" +:+ v) "ro") with false
    by (rewrite append_cons; reflexivity).
  destruct (Str.is_infix "mode=" v).
  - specialize (Hpresent eq_refl).
    destruct (Z.eqb_spec (Str.rfind ("mode=" +:+ v) "mode=") 0); [lia|reflexivity].
  - rewrite (Habsent eq_refl). cbn [Z.eqb]. do 2 f_equal.
    unfold Str.substr_chars, Str.size. rewrite length_append.
    change (String.length "mode=") with 5%nat.
    unfold Str.size in Hsize.
    replace (Z.min Str.npos (Z.of_nat (5 + String.length v) - 5))
      with (Z.of_nat (String.length v)) by lia.
    change (Z.to_nat 5) with (String.length "mode=").
    rewrite drop_append, Nat2Z.id. now apply take_all.
Qed.

(** X2: a mount entry whose source, destination and options are strings,
    in a document whose [linux.rootfsPropagation] is a string: the mount has
    that source and destination, is writable exactly when no option is [ro],
    has the propagation of the document, and has an empty mode when no option
    starts with [mode=]. *)
Theorem parse_mount_well_formed (spec m linux : Json.Value)
    (source destination propagation : string) (opts : list string) :
  Json.member m "options" = Ret (Json.arrayValue (Json.stringValue <$> opts)) ->
  Json.member m "source" = Ret (Json.stringValue source) ->
  Json.member m "destination" = Ret (Json.stringValue destination) ->
  Json.member spec "linux" = Ret linux ->
  Json.member linux "rootfsPropagation" = Ret (Json.stringValue propagation) ->
  exists mode,
    parse_mount spec m =
    Ret {| m_source := source; m_dest := destination; m_mode := mode;
           m_rdwr := negb (existsb (fun opt => String.eqb opt "ro") opts);
           m_propagation := propagation |} /\
    (forallb (fun opt => negb (String.prefix "mode=" opt)) opts = true ->
     mode = EmptyString).
Proof.
  intros Ho Hs Hd Hl Hp. unfold parse_mount.
  rewrite Ho. cbn [mbind outcome_bind Json.elements].
  destruct (mount_options_loop opts false EmptyString) as (mode & -> & Hmode).
  cbn [mbind outcome_bind orb]. rewrite Hs, Hd.
  cbn [mbind outcome_bind Json.asString]. rewrite Hl.
  cbn [mbind outcome_bind]. rewrite Hp.
  exists mode. split; [reflexivity|exact Hmode].
Qed.

(** A mount entry without options, source and destination, in a document
    without [linux], does not fault: the mount is writable and its strings
    are empty. *)
Lemma parse_mount_missing_keys (spec m : Json.Value) :
  Json.member m "options" = Ret Json.nullValue ->
  Json.member m "source" = Ret Json.nullValue ->
  Json.member m "destination" = Ret Json.nullValue ->
  Json.member spec "linux" = Ret Json.nullValue ->
  parse_mount spec m =
  Ret {| m_source := EmptyString; m_dest := EmptyString; m_mode := EmptyString;
         m_rdwr := true; m_propagation := EmptyString |}.
Proof.
  intros Ho Hs Hd Hl. unfold parse_mount. rewrite Ho, Hs, Hd.
  cbn [mbind outcome_bind Json.elements foldM Json.asString]. now rewrite Hl.
Qed.

(** X3: the env entries of the document, when they are strings, are appended
    as they are, in the order of the document. *)
Theorem parse_env_strings (spec process : Json.Value) (acc envs : list string) :
  Json.member spec "process" = Ret process ->
  Json.member process "env" = Ret (Json.arrayValue (Json.stringValue <$> envs)) ->
  parse_env spec acc = Ret (acc ++ envs).
Proof.
  intros Hp He. unfold parse_env. rewrite Hp. cbn [mbind outcome_bind]. rewrite He.
  cbn [mbind outcome_bind Json.elements]. clear He.
  revert acc. induction envs as [|e envs IH]; intros acc; cbn [fmap list_fmap foldM].
  - now rewrite app_nil_r.
  - cbn [Json.asString mbind outcome_bind mret outcome_ret].
    rewrite IH. now rewrite <- app_assoc.
Qed.

(** What the document can make the engine throw is a JsonCpp logic error. *)
Lemma foldM_fault {A B} (step : A -> B -> outcome A) (P : fault -> Prop) :
  (forall a b f, step a b = Fault f -> P f) ->
  forall l a f, foldM step a l = Fault f -> P f.
Proof.
  intros Hstep. induction l as [|b l IH]; intros a f; cbn [foldM]; [discriminate|].
  destruct (step a b) as [a'|f'] eqn:E; cbn [mbind outcome_bind].
  - apply IH.
  - intros [= <-]. eauto.
Qed.

Lemma json_member_fault (v : Json.Value) (key : string) (f : fault) :
  Json.member v key = Fault f -> f = JsonLogicError.
Proof. destruct v; cbn; congruence. Qed.

Lemma json_asString_fault (v : Json.Value) (f : fault) :
  Json.asString v = Fault f -> f = JsonLogicError.
Proof. destruct v; cbn; congruence. Qed.

Lemma mount_option_step_fault st jopt f :
  mount_option_step st jopt = Fault f -> f = JsonLogicError.
Proof.
  destruct st as [readonly mode]. unfold mount_option_step.
  destruct (Json.asString jopt) as [opt|f'] eqn:E; cbn [mbind outcome_bind].
  - destruct (String.eqb opt "ro"); [discriminate|].
    destruct (Z.eqb_spec (Str.rfind opt "mode=") 0) as [Hz|Hz]; [|discriminate].
    now rewrite (substr_mode_value opt Hz).
  - intros [= <-]. now apply json_asString_fault in E.
Qed.

Lemma parse_mount_fault spec m f :
  parse_mount spec m = Fault f -> f = JsonLogicError.
Proof.
  unfold parse_mount.
  repeat match goal with
  | |- context [mbind _ ?o] =>
      lazymatch o with
      | Json.member _ _ =>
          let E := fresh "E" in
          destruct o eqn:E; cbn [mbind outcome_bind];
            [|intros [= <-]; now apply json_member_fault in E]
      | Json.asString _ =>
          let E := fresh "E" in
          destruct o eqn:E; cbn [mbind outcome_bind];
            [|intros [= <-]; now apply json_asString_fault in E]
      | foldM mount_option_step _ _ =>
          let E := fresh "E" in
          destruct o as [[? ?]|] eqn:E; cbn [mbind outcome_bind];
            [|intros [= <-];
              now apply (foldM_fault _ (fun f => f = JsonLogicError)
                           mount_option_step_fault) in E]
      end
  end.
  discriminate.
Qed.

Lemma parse_mounts_fault spec acc f :
  parse_mounts spec acc = Fault f -> f = JsonLogicError.
Proof.
  unfold parse_mounts.
  destruct (Json.member spec "mounts") as [mounts|f'] eqn:E; cbn [mbind outcome_bind];
    [|intros [= <-]; now apply json_member_fault in E].
  apply (foldM_fault _ (fun f => f = JsonLogicError)).
  intros a b f0. destruct (parse_mount spec b) as [mnt|f1] eqn:Em;
    cbn [mbind outcome_bind]; [discriminate|].
  intros [= <-]. now apply parse_mount_fault in Em.
Qed.

Lemma parse_env_fault spec acc f :
  parse_env spec acc = Fault f -> f = JsonLogicError.
Proof.
  unfold parse_env.
  destruct (Json.member spec "process") as [process|f'] eqn:E; cbn [mbind outcome_bind];
    [|intros [= <-]; now apply json_member_fault in E].
  destruct (Json.member process "env") as [envs|f'] eqn:E'; cbn [mbind outcome_bind];
    [|intros [= <-]; now apply json_member_fault in E'].
  apply (foldM_fault _ (fun f => f = JsonLogicError)).
  intros a b f0. destruct (Json.asString b) as [e|f1] eqn:Ee;
    cbn [mbind outcome_bind]; [discriminate|].
  intros [= <-]. now apply json_asString_fault in Ee.
Qed.

(** ** The descriptor *)

Section DescriptorFacts.

Variable m_container_label_max_length : nat.
Variable reader_parse : string -> bool * Json.Value.

Local Abbreviation fill := (fill_from_descriptor m_container_label_max_length reader_parse).

(** The record [fill_from_descriptor] gives when nothing faults. *)
Lemma fill_from_descriptor_ok c0 container container_id s0 tag rest mounts env :
  sinsp_split (ContainerdService.image c0) ":" = s0 :: tag :: rest ->
  parse_mounts (reader_parse (ContainerdService.value (ContainerdService.spec c0))).2
               (m_mounts container) = Ret mounts ->
  parse_env (reader_parse (ContainerdService.value (ContainerdService.spec c0))).2
            (m_env container) = Ret env ->
  fill c0 container container_id =
  Ret {| m_id := container_id;
         m_full_id := ContainerdService.id c0;
         m_name := m_name container;
         m_image := Str.substr_chars s0 (Str.size_t_add (Str.rfind s0 "/") 1) Str.npos;
         m_imagerepo := Str.substr_chars s0 0 (Str.rfind s0 "/");
         m_imagetag := tag;
         m_imagedigest := EmptyString;
         m_type := CT_CONTAINERD;
         m_labels := copy_labels m_container_label_max_length
                       (ContainerdService.labels c0) (m_labels container);
         m_mounts := mounts;
         m_env := env;
         m_memory_limit := m_memory_limit container;
         m_cpu_shares := m_cpu_shares container;
         m_cpu_quota := m_cpu_quota container;
         m_cpu_period := m_cpu_period container;
         m_cpuset_cpu_count := m_cpuset_cpu_count container;
         m_lookup := m_lookup container |}.
Proof.
  intros Hsplit Hmounts Henv. unfold fill_from_descriptor.
  rewrite Hsplit. cbn [vector_at lookup list_lookup mbind outcome_bind].
  rewrite substr_after_slash, substr_from_start. cbn [mbind outcome_bind].
  destruct (reader_parse _) as [parsed spec]. cbn [snd] in Hmounts, Henv.
  cbn -[Str.substr_chars Str.rfind Str.size_t_add copy_labels parse_env parse_mounts].
  rewrite Hmounts.
  cbn -[Str.substr_chars Str.rfind Str.size_t_add copy_labels parse_env parse_mounts].
  rewrite Henv. reflexivity.
Qed.

(** What every record [fill_from_descriptor] gives has of the descriptor and
    keeps of [container]. *)
Lemma fill_from_descriptor_inv c0 container container_id c' :
  fill c0 container container_id = Ret c' ->
  m_id c' = container_id /\
  m_full_id c' = ContainerdService.id c0 /\
  m_type c' = CT_CONTAINERD /\
  m_name c' = m_name container /\
  m_lookup c' = m_lookup container /\
  (exists s0 tag rest,
     sinsp_split (ContainerdService.image c0) ":" = s0 :: tag :: rest /\
     m_image c' = Str.substr_chars s0 (Str.size_t_add (Str.rfind s0 "/") 1) Str.npos /\
     m_imagerepo c' = Str.substr_chars s0 0 (Str.rfind s0 "/") /\
     m_imagetag c' = tag).
Proof.
  unfold fill_from_descriptor.
  destruct (sinsp_split (ContainerdService.image c0) ":") as [|s0 [|tag rest]];
    cbn [vector_at lookup list_lookup mbind outcome_bind]; [discriminate| |].
  - rewrite substr_after_slash, substr_from_start. discriminate.
  - rewrite substr_after_slash, substr_from_start. cbn [mbind outcome_bind].
    destruct (reader_parse _) as [parsed spec].
    destruct (parse_mounts _ _) as [mounts|]; cbn [mbind outcome_bind]; [|discriminate].
    destruct (parse_env _ _) as [env|]; cbn [mbind outcome_bind]; [|discriminate].
    intros [= <-]. cbn. repeat split; eauto 10.
Qed.

(** A null root has no mount and no env entry. *)
Lemma parse_null_root (mounts : list container_mount_info) (env : list string) :
  parse_mounts Json.nullValue mounts = Ret mounts /\
  parse_env Json.nullValue env = Ret env.
Proof. split; reflexivity. Qed.

(** An image reference without [/] before its [:] gives the same text as
    image and as repo. *)
Lemma fill_image_without_slash c0 container container_id c' s0 tag rest :
  fill c0 container container_id = Ret c' ->
  sinsp_split (ContainerdService.image c0) ":" = s0 :: tag :: rest ->
  Str.contains_char "/" s0 = false ->
  Str.size s0 <= Str.npos ->
  m_image c' = s0 /\ m_imagerepo c' = s0.
Proof.
  intros Hfill Hsplit Hno Hsize.
  apply fill_from_descriptor_inv in Hfill
    as (_ & _ & _ & _ & _ & s0' & tag' & rest' & Hsplit' & -> & -> & _).
  rewrite Hsplit in Hsplit'. injection Hsplit' as <- <- <-.
  now apply slices_without_slash.
Qed.

(** The slices of a reference [repo/img]. *)
Lemma slices_with_slash (repo img : string) :
  Str.contains_char "/" img = false ->
  Str.size (repo +:+ String "/" img) <= Str.npos ->
  Str.substr_chars (repo +:+ String "/" img)
    (Str.size_t_add (Str.rfind (repo +:+ String "/" img) "/") 1) Str.npos = img /\
  Str.substr_chars (repo +:+ String "/" img) 0
    (Str.rfind (repo +:+ String "/" img) "/") = repo.
Proof.
  intros Himg Hsize. unfold Str.rfind.
  rewrite (rfind_from_last_char "/" repo img 0 Himg). cbn [Nat.add].
  unfold Str.size in Hsize. rewrite length_append in Hsize. cbn [String.length] in Hsize.
  assert (Hnpos : Str.npos = 2 ^ 64 - 1) by reflexivity.
  unfold Str.substr_chars, Str.size_t_add, Str.size, Str.size_t_modulus.
  rewrite length_append. cbn [String.length]. split.
  - rewrite Z.mod_small by lia.
    replace (Z.to_nat (Z.of_nat (String.length repo) + 1))
      with (String.length (repo +:+ "/")) by (rewrite length_append; cbn; lia).
    replace (repo +:+ String "/" img) with ((repo +:+ "/") +:+ img)
      by (clear; induction repo as [|c repo IH];
          [reflexivity|rewrite !append_cons; now rewrite IH]).
    rewrite drop_append. apply take_all. lia.
  - rewrite Z.sub_0_r, Z.min_l by lia. rewrite Nat2Z.id. cbn [Z.to_nat Str.drop].
    apply take_append.
Qed.

(** X4: an image reference [repo/img:tag], where [img] has no [/], is split
    in the image [img], the repo [repo] (everything before the last [/]) and
    the tag [tag]. *)
Theorem fill_image_with_repo c0 container container_id c' repo img tag rest :
  fill c0 container container_id = Ret c' ->
  sinsp_split (ContainerdService.image c0) ":" = (repo +:+ String "/" img) :: tag :: rest ->
  Str.contains_char "/" img = false ->
  Str.size (repo +:+ String "/" img) <= Str.npos ->
  m_image c' = img /\ m_imagerepo c' = repo /\ m_imagetag c' = tag.
Proof.
  intros Hfill Hsplit Himg Hsize.
  apply fill_from_descriptor_inv in Hfill
    as (_ & _ & _ & _ & _ & s0' & tag' & rest' & Hsplit' & -> & -> & ->).
  rewrite Hsplit in Hsplit'. injection Hsplit' as <- <- <-.
  destruct (slices_with_slash repo img Himg Hsize) as [-> ->]. auto.
Qed.

(** The labels, the digest, the mounts and the env of the record
    [fill_from_descriptor] gives. *)
Lemma fill_from_descriptor_rest c0 container container_id c' :
  fill c0 container container_id = Ret c' ->
  m_labels c' = copy_labels m_container_label_max_length
                  (ContainerdService.labels c0) (m_labels container) /\
  m_imagedigest c' = EmptyString /\
  parse_mounts (reader_parse (ContainerdService.value (ContainerdService.spec c0))).2
               (m_mounts container) = Ret (m_mounts c') /\
  parse_env (reader_parse (ContainerdService.value (ContainerdService.spec c0))).2
            (m_env container) = Ret (m_env c').
Proof.
  unfold fill_from_descriptor.
  destruct (sinsp_split (ContainerdService.image c0) ":") as [|s0 [|tag rest]];
    cbn [vector_at lookup list_lookup mbind outcome_bind]; [discriminate| |].
  - rewrite substr_after_slash, substr_from_start. discriminate.
  - rewrite substr_after_slash, substr_from_start. cbn [mbind outcome_bind].
    destruct (reader_parse _) as [parsed spec]. cbn [snd].
    cbn -[Str.substr_chars Str.rfind Str.size_t_add copy_labels parse_env parse_mounts].
    destruct (parse_mounts _ _) as [mounts|]; cbn [mbind outcome_bind]; [|discriminate].
    cbn -[Str.substr_chars Str.rfind Str.size_t_add copy_labels parse_env parse_mounts].
    destruct (parse_env _ _) as [env|]; cbn [mbind outcome_bind]; [|discriminate].
    intros [= <-]. cbn. auto.
Qed.

(** X5: the labels of a record filled from a descriptor, when the record had
    none: a label of the descriptor is copied exactly when its value is not
    longer than [m_container_label_max_length]; no other label appears. *)
Theorem fill_labels_bounded c0 container container_id c' :
  fill_from_descriptor m_container_label_max_length reader_parse
    c0 container container_id = Ret c' ->
  m_labels container = ∅ ->
  forall (k v : string),
    m_labels c' !! k = Some v <->
    ContainerdService.labels c0 !! k = Some v /\
    (String.length v <= m_container_label_max_length)%nat.
Proof.
  intros Hfill Hempty k v.
  apply fill_from_descriptor_rest in Hfill as (-> & _).
  unfold copy_labels. rewrite Hempty, (right_id_L ∅ (∪)).
  rewrite map_lookup_filter_Some. reflexivity.
Qed.

(** X6: an image reference that gives fewer than two fields has no tag to
    read: [raw_image_splits] is indexed past its end and no record is
    made. *)
Theorem fill_without_tag_faults c0 container container_id :
  (length (sinsp_split (ContainerdService.image c0) ":") < 2)%nat ->
  fill c0 container container_id = Fault VectorOutOfRange.
Proof.
  unfold fill_from_descriptor.
  destruct (sinsp_split (ContainerdService.image c0) ":") as [|s0 [|tag rest]];
    cbn [length vector_at lookup list_lookup mbind outcome_bind];
    [reflexivity| |lia].
  intros _. now rewrite substr_after_slash, substr_from_start.
Qed.

(** The faults of [fill_from_descriptor], by the fields of the reference. *)
Lemma fill_fault_cases c0 container container_id f :
  fill c0 container container_id = Fault f ->
  (f = VectorOutOfRange /\
   (length (sinsp_split (ContainerdService.image c0) ":") < 2)%nat) \/
  (f = JsonLogicError /\
   (2 <= length (sinsp_split (ContainerdService.image c0) ":"))%nat).
Proof.
  unfold fill_from_descriptor.
  destruct (sinsp_split (ContainerdService.image c0) ":") as [|s0 [|tag rest]];
    cbn [length vector_at lookup list_lookup mbind outcome_bind].
  - intros [= <-]. left. split; [reflexivity|lia].
  - rewrite substr_after_slash, substr_from_start. cbn [mbind outcome_bind].
    intros [= <-]. left. split; [reflexivity|lia].
  - rewrite substr_after_slash, substr_from_start. cbn [mbind outcome_bind].
    destruct (reader_parse _) as [parsed spec].
    destruct (parse_mounts _ _) as [mounts|f'] eqn:Em; cbn [mbind outcome_bind].
    + destruct (parse_env _ _) as [env|f'] eqn:Ee; cbn [mbind outcome_bind];
        [discriminate|].
      intros [= <-]. right. split; [now apply parse_env_fault in Ee|lia].
    + intros [= <-]. right. split; [now apply parse_mounts_fault in Em|lia].
Qed.

(** X7: the slices of [parse_containerd] never throw [std::out_of_range]:
    [substr(rfind("/") + 1)] and [substr(0, rfind("/"))] on the first field
    of the image reference, with or without a [/] in it, and [opt.substr(5)]
    on a mount option, always start inside the text. *)
Theorem fill_never_out_of_range c0 container container_id :
  fill_from_descriptor m_container_label_max_length reader_parse
                       c0 container container_id <> Fault StringOutOfRange.
Proof.
  intros Hf. destruct (fill_fault_cases _ _ _ _ Hf) as [[[=] _]|[[=] _]].
Qed.

(** X16: a document whose root the reader leaves as an array, a string, a
    number or a boolean makes [spec["mounts"]] throw: with a tagged image
    reference the record is not made and the fault is the JsonCpp logic
    error. *)
Theorem fill_root_not_object_faults c0 container container_id :
  (2 <= length (sinsp_split (ContainerdService.image c0) ":"))%nat ->
  match (reader_parse (ContainerdService.value (ContainerdService.spec c0))).2 with
  | Json.nullValue | Json.objectValue _ => False
  | _ => True
  end ->
  fill c0 container container_id = Fault JsonLogicError.
Proof.
  unfold fill_from_descriptor.
  destruct (sinsp_split (ContainerdService.image c0) ":") as [|s0 [|tag rest]];
    cbn [length vector_at lookup list_lookup mbind outcome_bind]; [lia|lia|].
  intros _. rewrite substr_after_slash, substr_from_start. cbn [mbind outcome_bind].
  destruct (reader_parse _) as [parsed spec]. cbn [snd].
  now destruct spec.
Qed.

End DescriptorFacts.

(** ** Traces *)

Lemma count_events_app (p : event -> bool) (tr1 tr2 : list event) :
  count_events p (tr1 ++ tr2) = (count_events p tr1 + count_events p tr2)%nat.
Proof. unfold count_events. now rewrite List.filter_app, length_app. Qed.

Lemma quiet_counts (evs : list event) :
  forallb is_quiet evs = true ->
  count_events is_publication evs = 0%nat /\
  count_events is_notification evs = 0%nat /\
  count_events is_limits_query evs = 0%nat.
Proof.
  unfold count_events.
  induction evs as [|e evs IH]; cbn [forallb List.filter]; [easy|].
  intros [He Hevs]%andb_prop. destruct (IH Hevs) as (IH1 & IH2 & IH3).
  destruct e; cbn in He |- *; try discriminate; auto.
Qed.

(** ** parse_containerd and resolve *)

Section ResolutionFacts.

Context {C : Type} `{!container_cache_interface C}.
Variable m_container_label_max_length : nat.
Variable matches_runc_cgroups :
  list (string * string) -> list runc.cgroup_layout -> option (string * string).
Variable get_cgroup : list (string * string) -> string -> string.
Variable get_cgroup_resource_limits :
  cgroup_limits.cgroup_limits_key -> cgroup_limits.cgroup_limits_value.
Variable reader_parse : string -> bool * Json.Value.

Local Abbreviation Fill := (fill_from_descriptor m_container_label_max_length reader_parse).
Local Abbreviation Parse :=
  (parse_containerd (C := C) m_container_label_max_length reader_parse).
Local Abbreviation Resolve :=
  (resolve (C := C) m_container_label_max_length matches_runc_cgroups get_cgroup
           get_cgroup_resource_limits reader_parse).
Local Abbreviation Key := (limits_key get_cgroup).

Implicit Types (daemon : containerd_daemon) (this : containerd) (w : world (C := C)).
Implicit Types (container : sinsp_container_info) (tinfo : sinsp_threadinfo).

Ltac run_M :=
  unfold mbind, M_bind, mret, M_ret, lift, log, emit, read_cache, update_cache;
  cbn [w_cache w_trace fst snd].

(** With no interface the first thing [parse_containerd] does is to
    dereference it. *)
Lemma parse_containerd_null daemon this container id w :
  m_interface this = None ->
  Parse daemon this container id w = Fault NullDereference.
Proof. intros H. unfold parse_containerd. now rewrite H. Qed.

(** An answer that is an error, or that has not exactly one descriptor:
    [false], [container] as it was, the query and a log line in the trace. *)
Lemma parse_containerd_rejects daemon this container id interface stub :
  m_interface this = Some interface ->
  m_stub interface = Some stub ->
  let answer := daemon (target stub) default_namespace_context (filter_request id) in
  grpc.ok answer.1 = false \/ length (ContainerdService.containers answer.2) <> 1%nat ->
  exists evs, forallb is_quiet evs = true /\
    forall w, Parse daemon this container id w = Ret ((false, container), add_trace w evs).
Proof.
  intros Hi Hs answer Hbad. unfold parse_containerd. rewrite Hi.
  unfold list_container_resp, Stub_List. rewrite Hs.
  fold answer. destruct answer as [status resp]. cbn [fst snd] in Hbad.
  destruct (grpc.ok status) eqn:Hok.
  - destruct Hbad as [|Hlen]; [discriminate|].
    destruct (ContainerdService.containers resp) as [|c0 [|c1 l]] eqn:Hc;
      [|cbn in Hlen; congruence|];
      eexists [_; _];
      (split; [|intros w; run_M; rewrite Hok, Hc; cbn; unfold add_trace; cbn;
                now rewrite <- app_assoc]);
      reflexivity.
  - eexists [_; _];
      (split; [|intros w; run_M; rewrite Hok; cbn; unfold add_trace; cbn;
                now rewrite <- app_assoc]);
      reflexivity.
Qed.

(** An answer with exactly one descriptor: the record is filled from it. *)
Lemma parse_containerd_accepts daemon this container id interface stub resp c0 w :
  m_interface this = Some interface ->
  m_stub interface = Some stub ->
  daemon (target stub) default_namespace_context (filter_request id) = (grpc.OK, resp) ->
  ContainerdService.containers resp = [c0] ->
  Parse daemon this container id w =
  match Fill c0 container id with
  | Ret c' =>
      Ret ((true, c'),
           add_trace w [EvList (target stub) default_namespace_context (filter_request id)])
  | Fault f => Fault f
  end.
Proof.
  intros Hi Hs Hd Hc. unfold parse_containerd. rewrite Hi.
  unfold list_container_resp, Stub_List. rewrite Hs. run_M. rewrite Hd.
  cbn. rewrite Hc. cbn. destruct (Fill c0 container id); reflexivity.
Qed.

(** Whatever [parse_containerd] returns, it returns in every world, and it
    leaves the cache alone. *)
Lemma parse_containerd_inv daemon this container id w b c' w' :
  Parse daemon this container id w = Ret ((b, c'), w') ->
  exists interface stub evs,
    m_interface this = Some interface /\ m_stub interface = Some stub /\
    forallb is_quiet evs = true /\
    (forall w0, Parse daemon this container id w0 = Ret ((b, c'), add_trace w0 evs)) /\
    (b = false -> c' = container) /\
    (b = true -> exists resp c0,
       daemon (target stub) default_namespace_context (filter_request id) = (grpc.OK, resp) /\
       ContainerdService.containers resp = [c0] /\
       Fill c0 container id = Ret c').
Proof.
  intros Hrun.
  destruct (m_interface this) as [interface|] eqn:Hi;
    [|now rewrite parse_containerd_null in Hrun].
  destruct (m_stub interface) as [stub|] eqn:Hs;
    [|unfold parse_containerd, list_container_resp in Hrun;
      rewrite Hi, Hs in Hrun; discriminate].
  exists interface, stub.
  destruct (daemon (target stub) default_namespace_context (filter_request id))
    as [status resp] eqn:Hd.
  destruct (decide (grpc.ok status = true /\
                    length (ContainerdService.containers resp) = 1%nat)) as [[Hok Hlen]|Hbad].
  - destruct status; [|discriminate].
    destruct (ContainerdService.containers resp) as [|c0 [|c1 l]] eqn:Hc; try discriminate.
    rewrite (parse_containerd_accepts _ _ _ _ _ _ _ _ _ Hi Hs Hd Hc) in Hrun.
    destruct (Fill c0 container id) as [c1|] eqn:Hf; [|discriminate].
    injection Hrun as <- <- <-.
    exists [EvList (target stub) default_namespace_context (filter_request id)].
    do 2 (split; [done|]). split; [reflexivity|].
    split; [|split; [discriminate|eauto]].
    intros w0. rewrite (parse_containerd_accepts _ _ _ _ _ _ _ _ _ Hi Hs Hd Hc).
    now rewrite Hf.
  - destruct (parse_containerd_rejects daemon this container id _ _ Hi Hs)
      as (evs & Hq & Hall).
    { rewrite Hd; cbn [fst snd].
      destruct (grpc.ok status); [right|now left]. intros Hlen. now apply Hbad. }
    rewrite Hall in Hrun. injection Hrun as <- <- <-.
    exists evs. do 2 (split; [done|]). split; [exact Hq|].
    split; [exact Hall|]. split; [reflexivity|discriminate].
Qed.

(** [resolve], by what the matcher and [parse_containerd] give. *)
Lemma resolve_no_match daemon this tinfo q w :
  matches_runc_cgroups (cgroups tinfo) CONTAINERD_CGROUP_LAYOUT = None ->
  Resolve daemon this tinfo q w =
  Ret ({| returned := false; tinfo_after := tinfo;
          container_local := sinsp_container_info_new |}, w).
Proof. intros Hm. unfold resolve. now rewrite Hm. Qed.

Lemma resolve_parse_fault daemon this tinfo q w id cg f :
  matches_runc_cgroups (cgroups tinfo) CONTAINERD_CGROUP_LAYOUT = Some (id, cg) ->
  Parse daemon this sinsp_container_info_new id w = Fault f ->
  Resolve daemon this tinfo q w = Fault f.
Proof. intros Hm Hp. unfold resolve. rewrite Hm. run_M. now rewrite Hp. Qed.

Lemma resolve_parse_false daemon this tinfo q w id cg c w1 :
  matches_runc_cgroups (cgroups tinfo) CONTAINERD_CGROUP_LAYOUT = Some (id, cg) ->
  Parse daemon this sinsp_container_info_new id w = Ret ((false, c), w1) ->
  Resolve daemon this tinfo q w =
  Ret ({| returned := false; tinfo_after := tinfo; container_local := c |}, w1).
Proof. intros Hm Hp. unfold resolve. rewrite Hm. run_M. now rewrite Hp. Qed.

Lemma resolve_parse_true daemon this tinfo q w id cg c w1 :
  matches_runc_cgroups (cgroups tinfo) CONTAINERD_CGROUP_LAYOUT = Some (id, cg) ->
  Parse daemon this sinsp_container_info_new id w = Ret ((true, c), w1) ->
  let tinfo' := set_m_container_id id tinfo in
  let key := Key (m_id c) tinfo' in
  let c1 := set_limits (get_cgroup_resource_limits key) c in
  let c2 := set_lookup_status sinsp_container_lookup.SUCCESSFUL (set_m_name (m_id c1) c1) in
  Resolve daemon this tinfo q w =
  if should_lookup (w_cache w1) (m_id c1) CT_CONTAINERD then
    Ret ({| returned := true; tinfo_after := tinfo'; container_local := c2 |},
         {| w_cache := notify_new_container (add_container (w_cache w1) c2 tinfo') c2 tinfo';
            w_trace := w_trace w1 ++
              [EvLimits key; EvAddContainer c2 tinfo'; EvNotifyNewContainer c2 tinfo'] |})
  else
    Ret ({| returned := true; tinfo_after := tinfo'; container_local := c1 |},
         add_trace w1 [EvLimits key]).
Proof.
  intros Hm Hp tinfo' key c1 c2. unfold resolve. rewrite Hm. run_M. rewrite Hp.
  cbn [negb]. fold tinfo'. change (m_id (set_limits _ c)) with (m_id c1).
  destruct (should_lookup (w_cache w1) (m_id c1) CT_CONTAINERD); [|reflexivity].
  cbn [w_cache w_trace]. rewrite <- !app_assoc. reflexivity.
Qed.

(** What a quiet stretch of the trace leaves of the counts. *)
Lemma add_trace_quiet w (evs : list event) (p : event -> bool) :
  forallb is_quiet evs = true ->
  p = is_publication \/ p = is_notification \/ p = is_limits_query ->
  count_events p (w_trace (add_trace w evs)) = count_events p (w_trace w).
Proof.
  intros Hq Hp. cbn [add_trace w_trace]. rewrite count_events_app.
  destruct (quiet_counts evs Hq) as (H1 & H2 & H3).
  destruct Hp as [->|[->| ->]]; lia.
Qed.

(** C10: every return of [false] from [resolve] (no cgroup match, an RPC
    error, zero or several descriptors) leaves the container association of
    the process as it was and does not touch the cache: the cache is the same
    and the trace only grew by the query and log lines. *)
Theorem resolve_false_frame daemon this tinfo q w r w' :
  Resolve daemon this tinfo q w = Ret (r, w') ->
  returned r = false ->
  tinfo_after r = tinfo /\
  w_cache w' = w_cache w /\
  exists evs, w_trace w' = w_trace w ++ evs /\ forallb is_quiet evs = true.
Proof.
  intros Hrun Hret.
  destruct (matches_runc_cgroups (cgroups tinfo) CONTAINERD_CGROUP_LAYOUT)
    as [[id cg]|] eqn:Hm.
  - destruct (Parse daemon this sinsp_container_info_new id w) as [[[b c] w1]|f] eqn:Hp.
    + destruct b.
      * rewrite (resolve_parse_true _ _ _ _ _ _ _ _ _ Hm Hp) in Hrun.
        destruct (should_lookup _ _ _); injection Hrun as <- <-; discriminate.
      * rewrite (resolve_parse_false _ _ _ _ _ _ _ _ _ Hm Hp) in Hrun.
        injection Hrun as <- <-.
        destruct (parse_containerd_inv _ _ _ _ _ _ _ _ Hp)
          as (interface & stub & evs & _ & _ & Hq & Hall & _).
        rewrite Hall in Hp. injection Hp as <-.
        repeat split; eauto.
    + rewrite (resolve_parse_fault _ _ _ _ _ _ _ _ Hm Hp) in Hrun. discriminate.
  - rewrite (resolve_no_match _ _ _ _ _ Hm) in Hrun. injection Hrun as <- <-.
    repeat split. exists []. now rewrite app_nil_r.
Qed.

(** C8: an answer of the daemon with no descriptor or with more than one
    makes [resolve] return [false]; the local record stays as constructed,
    the process and the cache are untouched and nothing is published. *)
Theorem resolve_rejects_ambiguous daemon this tinfo q w interface stub id cg status resp :
  m_interface this = Some interface ->
  m_stub interface = Some stub ->
  matches_runc_cgroups (cgroups tinfo) CONTAINERD_CGROUP_LAYOUT = Some (id, cg) ->
  daemon (target stub) default_namespace_context (filter_request id) = (status, resp) ->
  length (ContainerdService.containers resp) <> 1%nat ->
  exists w',
    Resolve daemon this tinfo q w =
    Ret ({| returned := false; tinfo_after := tinfo;
            container_local := sinsp_container_info_new |}, w') /\
    w_cache w' = w_cache w /\
    count_events is_publication (w_trace w') = count_events is_publication (w_trace w) /\
    count_events is_notification (w_trace w') = count_events is_notification (w_trace w).
Proof.
  intros Hi Hs Hm Hd Hlen.
  destruct (parse_containerd_rejects daemon this sinsp_container_info_new id _ _ Hi Hs)
    as (evs & Hq & Hall).
  { rewrite Hd. now right. }
  exists (add_trace w evs). split.
  - apply (resolve_parse_false _ _ _ _ _ _ _ _ _ Hm (Hall w)).
  - split; [reflexivity|]. split; apply add_trace_quiet; auto.
Qed.

(** C3 (amended): when the cgroup matches and [parse_containerd] returned
    true, the limits are queried once, with the key made of the id and the
    cpu, memory and cpuset cgroups of the process, and they are in the record,
    whether the cache then takes the record or not; a record that is
    published carries them. *)
Theorem resolve_attaches_limits daemon this tinfo q w id cg c w1 :
  matches_runc_cgroups (cgroups tinfo) CONTAINERD_CGROUP_LAYOUT = Some (id, cg) ->
  Parse daemon this sinsp_container_info_new id w = Ret ((true, c), w1) ->
  let limits := get_cgroup_resource_limits (Key id tinfo) in
  exists r w2 evs,
    Resolve daemon this tinfo q w = Ret (r, w2) /\
    returned r = true /\
    limits_of (container_local r) = limits /\
    w_trace w2 = w_trace w1 ++ EvLimits (Key id tinfo) :: evs /\
    count_events is_limits_query evs = 0%nat /\
    (forall info t, In (EvAddContainer info t) evs -> limits_of info = limits).
Proof.
  intros Hm Hp limits.
  destruct (parse_containerd_inv _ _ _ _ _ _ _ _ Hp)
    as (interface & stub & evs0 & _ & _ & _ & _ & _ & Htrue).
  destruct (Htrue eq_refl) as (resp & c0 & _ & _ & Hfill).
  apply fill_from_descriptor_inv in Hfill as (Hid & _).
  pose proof (resolve_parse_true daemon this tinfo q w id cg c w1 Hm Hp) as Hrun.
  cbv zeta in Hrun. rewrite Hid in Hrun.
  change (Key id (set_m_container_id id tinfo)) with (Key id tinfo) in Hrun.
  fold limits in Hrun.
  assert (Hlim : forall c', limits_of (set_limits limits c') = limits)
    by (intros c'; now destruct limits).
  destruct (should_lookup _ _ _); rewrite Hrun.
  - eexists _, _, [_; _]. split; [reflexivity|]. split; [reflexivity|].
    split; [apply Hlim|]. split; [reflexivity|]. split; [reflexivity|].
    intros info t [[= <- <-]|[[=]|[]]]. apply Hlim.
  - eexists _, _, []. split; [reflexivity|]. split; [reflexivity|].
    split; [apply Hlim|]. split; [reflexivity|]. split; [reflexivity|].
    intros info t [].
Qed.

(** The ids of the record [resolve] returns [true] with. *)
Lemma resolve_true_inv daemon this tinfo q w r w' :
  Resolve daemon this tinfo q w = Ret (r, w') ->
  returned r = true ->
  exists id cg c w1,
    matches_runc_cgroups (cgroups tinfo) CONTAINERD_CGROUP_LAYOUT = Some (id, cg) /\
    Parse daemon this sinsp_container_info_new id w = Ret ((true, c), w1) /\
    tinfo_after r = set_m_container_id id tinfo /\
    m_id (container_local r) = m_id c /\
    m_full_id (container_local r) = m_full_id c /\
    m_mounts (container_local r) = m_mounts c /\
    m_env (container_local r) = m_env c.
Proof.
  intros Hrun Hret.
  destruct (matches_runc_cgroups (cgroups tinfo) CONTAINERD_CGROUP_LAYOUT)
    as [[id cg]|] eqn:Hm.
  - destruct (Parse daemon this sinsp_container_info_new id w) as [[[b c] w1]|f] eqn:Hp.
    + destruct b.
      * exists id, cg, c, w1. do 2 (split; [done|]).
        rewrite (resolve_parse_true _ _ _ _ _ _ _ _ _ Hm Hp) in Hrun.
        destruct (should_lookup _ _ _); injection Hrun as <- <-; now cbn.
      * rewrite (resolve_parse_false _ _ _ _ _ _ _ _ _ Hm Hp) in Hrun.
        injection Hrun as <- <-. discriminate.
    + rewrite (resolve_parse_fault _ _ _ _ _ _ _ _ Hm Hp) in Hrun. discriminate.
  - rewrite (resolve_no_match _ _ _ _ _ Hm) in Hrun. injection Hrun as <- <-.
    discriminate.
Qed.

(** C5 (amended): in every record [resolve] returns [true] with, [m_id] is
    the truncated id of the cgroup and [m_full_id] is the id of the one
    descriptor the daemon answered with; when that id contains the truncated
    id, as the match filter asks, [m_full_id] contains [m_id]. *)
Theorem resolve_full_id_contains_id
    daemon this tinfo q w interface stub id cg status resp c0 r w' :
  matches_runc_cgroups (cgroups tinfo) CONTAINERD_CGROUP_LAYOUT = Some (id, cg) ->
  m_interface this = Some interface ->
  m_stub interface = Some stub ->
  daemon (target stub) default_namespace_context (filter_request id) = (status, resp) ->
  ContainerdService.containers resp = [c0] ->
  Str.is_infix id (ContainerdService.id c0) = true ->
  Resolve daemon this tinfo q w = Ret (r, w') ->
  returned r = true ->
  m_id (container_local r) = id /\
  m_full_id (container_local r) = ContainerdService.id c0 /\
  Str.is_infix (m_id (container_local r)) (m_full_id (container_local r)) = true.
Proof.
  intros Hm Hi Hs Hd Hc Hinfix Hrun Hret.
  destruct (resolve_true_inv _ _ _ _ _ _ _ Hrun Hret)
    as (id' & cg' & c & w1 & Hm' & Hp & _ & Hid & Hfull & _).
  rewrite Hm in Hm'. injection Hm' as <- <-.
  destruct (parse_containerd_inv _ _ _ _ _ _ _ _ Hp)
    as (interface' & stub' & evs & Hi' & Hs' & _ & _ & _ & Htrue).
  rewrite Hi in Hi'. injection Hi' as <-. rewrite Hs in Hs'. injection Hs' as <-.
  destruct (Htrue eq_refl) as (resp' & c0' & Hd' & Hc' & Hfill).
  rewrite Hd in Hd'. injection Hd' as -> ->. rewrite Hc in Hc'. injection Hc' as <-.
  apply fill_from_descriptor_inv in Hfill as (Hid' & Hfull' & _).
  rewrite Hid, Hfull, Hid', Hfull'. auto.
Qed.

(** With a tagged image reference and a document that does not parse,
    [resolve] returns [true] when the mounts and the env can be read from the
    root value the reader left, and the record has those. *)
Lemma resolve_reads_left_root
    daemon this tinfo q w interface stub id cg resp c0 s0 tag rest root mounts env :
  matches_runc_cgroups (cgroups tinfo) CONTAINERD_CGROUP_LAYOUT = Some (id, cg) ->
  m_interface this = Some interface ->
  m_stub interface = Some stub ->
  daemon (target stub) default_namespace_context (filter_request id) = (grpc.OK, resp) ->
  ContainerdService.containers resp = [c0] ->
  sinsp_split (ContainerdService.image c0) ":" = s0 :: tag :: rest ->
  reader_parse (ContainerdService.value (ContainerdService.spec c0)) = (false, root) ->
  parse_mounts root [] = Ret mounts ->
  parse_env root [] = Ret env ->
  exists r w',
    Resolve daemon this tinfo q w = Ret (r, w') /\
    returned r = true /\
    m_mounts (container_local r) = mounts /\
    m_env (container_local r) = env /\
    (root = Json.nullValue -> mounts = [] /\ env = []).
Proof.
  intros Hm Hi Hs Hd Hc Hsplit Hparse Hmounts Henv.
  pose proof (parse_containerd_accepts daemon this sinsp_container_info_new id
                _ _ _ _ w Hi Hs Hd Hc) as Hp.
  rewrite (fill_from_descriptor_ok _ _ c0 sinsp_container_info_new id
             s0 tag rest mounts env Hsplit) in Hp
    by (rewrite Hparse; assumption).
  pose proof (resolve_parse_true daemon this tinfo q w id cg _ _ Hm Hp) as Hrun.
  cbv zeta in Hrun. rewrite Hrun.
  assert (Hnull : root = Json.nullValue -> mounts = [] /\ env = []).
  { intros ->. cbn in Hmounts, Henv. split; congruence. }
  destruct (should_lookup _ _ _); eexists _, _; repeat split; apply Hnull; assumption.
Qed.

(** [fill_from_descriptor] looks only at the root value of what the reader
    returns: two readers that leave the same roots fill the same record. *)
Lemma fill_from_descriptor_reader_ext (reader' : string -> bool * Json.Value)
    c0 container id :
  (forall doc, (reader' doc).2 = (reader_parse doc).2) ->
  fill_from_descriptor m_container_label_max_length reader' c0 container id =
  Fill c0 container id.
Proof.
  intros Hext. unfold fill_from_descriptor.
  specialize (Hext (ContainerdService.value (ContainerdService.spec c0))).
  destruct (reader' _) as [b' root'], (reader_parse _) as [b root].
  cbn in Hext. subst root'. reflexivity.
Qed.

Lemma parse_containerd_reader_ext (reader' : string -> bool * Json.Value)
    daemon this container id w :
  (forall doc, (reader' doc).2 = (reader_parse doc).2) ->
  parse_containerd (C := C) m_container_label_max_length reader' daemon this container id w =
  Parse daemon this container id w.
Proof.
  intros Hext. unfold parse_containerd.
  destruct (m_interface this) as [interface|]; [|reflexivity].
  unfold mbind, M_bind.
  destruct (list_container_resp daemon interface id w) as [[[status resp] w1]|f];
    [|reflexivity].
  destruct (negb (grpc.ok status)); [reflexivity|].
  destruct (length (ContainerdService.containers resp) =? 0)%nat; [reflexivity|].
  destruct (1 <? length (ContainerdService.containers resp))%nat; [reflexivity|].
  destruct (lift (vector_at (ContainerdService.containers resp) 0) w1)
    as [[c0 w2]|f]; [|reflexivity].
  unfold lift. rewrite (fill_from_descriptor_reader_ext reader' _ _ _ Hext). reflexivity.
Qed.

Lemma resolve_reader_ext (reader' : string -> bool * Json.Value) daemon this tinfo q w :
  (forall doc, (reader' doc).2 = (reader_parse doc).2) ->
  resolve (C := C) m_container_label_max_length matches_runc_cgroups get_cgroup
          get_cgroup_resource_limits reader' daemon this tinfo q w =
  Resolve daemon this tinfo q w.
Proof.
  intros Hext. unfold resolve.
  destruct (matches_runc_cgroups (cgroups tinfo) CONTAINERD_CGROUP_LAYOUT)
    as [[id cg]|]; [|reflexivity].
  unfold mbind at 1 7, M_bind.
  rewrite (parse_containerd_reader_ext reader' _ _ _ _ _ Hext). reflexivity.
Qed.

(** C7 (amended): the result of [Json::Reader::parse] is not looked at.  For
    the one descriptor of a matched process whose document does not parse and
    leaves the root value [root]:
    - [resolve] does what it does with any reader that leaves the same root
      values, in particular one that reports the parse as successful, so the
      failure itself never shows;
    - with a tagged image reference, when the mounts and the env can be read
      from [root], [resolve] returns [true] and the record has exactly those
      mounts and that env;
    - with a tagged image reference and a null [root], [resolve] returns
      [true] and the record has no mount and no env. *)
Theorem resolve_lenient_parse
    daemon this tinfo q w interface stub id cg resp c0 root :
  matches_runc_cgroups (cgroups tinfo) CONTAINERD_CGROUP_LAYOUT = Some (id, cg) ->
  m_interface this = Some interface ->
  m_stub interface = Some stub ->
  daemon (target stub) default_namespace_context (filter_request id) = (grpc.OK, resp) ->
  ContainerdService.containers resp = [c0] ->
  reader_parse (ContainerdService.value (ContainerdService.spec c0)) = (false, root) ->
  (forall reader' : string -> bool * Json.Value,
     (forall doc, (reader' doc).2 = (reader_parse doc).2) ->
     resolve (C := C) m_container_label_max_length matches_runc_cgroups get_cgroup
             get_cgroup_resource_limits reader' daemon this tinfo q w =
     Resolve daemon this tinfo q w) /\
  (forall s0 tag rest mounts env,
     sinsp_split (ContainerdService.image c0) ":" = s0 :: tag :: rest ->
     parse_mounts root [] = Ret mounts ->
     parse_env root [] = Ret env ->
     exists r w',
       Resolve daemon this tinfo q w = Ret (r, w') /\
       returned r = true /\
       m_mounts (container_local r) = mounts /\
       m_env (container_local r) = env) /\
  (forall s0 tag rest,
     sinsp_split (ContainerdService.image c0) ":" = s0 :: tag :: rest ->
     root = Json.nullValue ->
     exists r w',
       Resolve daemon this tinfo q w = Ret (r, w') /\
       returned r = true /\
       m_mounts (container_local r) = [] /\
       m_env (container_local r) = []).
Proof.
  intros Hm Hi Hs Hd Hc Hparse.
  assert (Hread : forall s0 tag rest mounts env,
     sinsp_split (ContainerdService.image c0) ":" = s0 :: tag :: rest ->
     parse_mounts root [] = Ret mounts ->
     parse_env root [] = Ret env ->
     exists r w',
       Resolve daemon this tinfo q w = Ret (r, w') /\
       returned r = true /\
       m_mounts (container_local r) = mounts /\
       m_env (container_local r) = env).
  { intros s0 tag rest mounts env Hsplit Hmounts Henv.
    destruct (resolve_reads_left_root daemon this tinfo q w interface stub id cg resp c0
                s0 tag rest root mounts env Hm Hi Hs Hd Hc Hsplit Hparse Hmounts Henv)
      as (r & w' & Hrun & Hret & Hmnt & Hev & _).
    exists r, w'. auto. }
  split; [|split].
  - intros reader' Hext. apply resolve_reader_ext, Hext.
  - exact Hread.
  - intros s0 tag rest Hsplit ->. apply (Hread s0 tag rest); [assumption| |]; reflexivity.
Qed.

(** On an identity the cache reports as resolved, [resolve] skips the
    publication and the notification, returns [true] and sets the container
    id of the process. *)
Lemma resolve_skips_resolved daemon this tinfo q w id cg c w1 :
  matches_runc_cgroups (cgroups tinfo) CONTAINERD_CGROUP_LAYOUT = Some (id, cg) ->
  Parse daemon this sinsp_container_info_new id w = Ret ((true, c), w1) ->
  should_lookup (w_cache w1) (m_id c) CT_CONTAINERD = false ->
  exists r w2,
    Resolve daemon this tinfo q w = Ret (r, w2) /\
    returned r = true /\
    m_container_id (tinfo_after r) = id /\
    w_cache w2 = w_cache w1 /\
    count_events is_publication (w_trace w2) = count_events is_publication (w_trace w1) /\
    count_events is_notification (w_trace w2) = count_events is_notification (w_trace w1).
Proof.
  intros Hm Hp Hl.
  pose proof (resolve_parse_true daemon this tinfo q w id cg c w1 Hm Hp) as Hrun.
  cbv zeta in Hrun. change (m_id (set_limits _ c)) with (m_id c) in Hrun.
  rewrite Hl in Hrun. rewrite Hrun. eexists _, _. split; [reflexivity|].
  cbn [add_trace w_trace]. rewrite !count_events_app. cbn. repeat split; lia.
Qed.

(** With a cache that reports an identity as resolved once a successful
    record of it was added and notified, a second [resolve] for the same
    process returns what the first returned and neither publishes nor
    notifies. *)
Lemma resolve_second_call daemon this tinfo q q' w r1 w1 :
  (forall c info t,
     m_type info = CT_CONTAINERD ->
     m_lookup info = sinsp_container_lookup.SUCCESSFUL ->
     should_lookup (notify_new_container (add_container c info t) info t)
                   (m_id info) CT_CONTAINERD = false) ->
  Resolve daemon this tinfo q w = Ret (r1, w1) ->
  exists r2 w2,
    Resolve daemon this (tinfo_after r1) q' w1 = Ret (r2, w2) /\
    returned r2 = returned r1 /\
    (count_events is_publication (w_trace w2)
       <= count_events is_publication (w_trace w) + 1)%nat /\
    (count_events is_notification (w_trace w2)
       <= count_events is_notification (w_trace w) + 1)%nat /\
    (returned r1 = true ->
       w_cache w2 = w_cache w1 /\
       count_events is_publication (w_trace w2) =
         count_events is_publication (w_trace w1) /\
       count_events is_notification (w_trace w2) =
         count_events is_notification (w_trace w1) /\
       m_container_id (tinfo_after r2) = m_id (container_local r2)).
Proof.
  intros Hlaw Hrun.
  destruct (matches_runc_cgroups (cgroups tinfo) CONTAINERD_CGROUP_LAYOUT)
    as [[id cg]|] eqn:Hm.
  - destruct (Parse daemon this sinsp_container_info_new id w) as [[[b c] wp]|f] eqn:Hp;
      [|rewrite (resolve_parse_fault _ _ _ _ _ _ _ _ Hm Hp) in Hrun; discriminate].
    destruct (parse_containerd_inv _ _ _ _ _ _ _ _ Hp)
      as (interface & stub & evs & _ & _ & Hq & Hall & _ & Htrue).
    assert (Hwp : wp = add_trace w evs)
      by (rewrite Hall in Hp; now injection Hp as <-).
    destruct (quiet_counts evs Hq) as (Hq1 & Hq2 & _).
    destruct b.
    + destruct (Htrue eq_refl) as (resp & c0 & _ & _ & Hfill).
      apply fill_from_descriptor_inv in Hfill as (Hid & _ & Htype & _ & _).
      rewrite (resolve_parse_true _ _ _ _ _ _ _ _ _ Hm Hp) in Hrun.
      cbv zeta in Hrun. change (m_id (set_limits _ c)) with (m_id c) in Hrun.
      assert (Hsecond : exists r2 w2,
                Resolve daemon this (tinfo_after r1) q' w1 = Ret (r2, w2) /\
                returned r2 = true /\
                m_container_id (tinfo_after r2) = id /\
                m_id (container_local r2) = id /\
                w_cache w2 = w_cache w1 /\
                count_events is_publication (w_trace w2) =
                  count_events is_publication (w_trace w1) /\
                count_events is_notification (w_trace w2) =
                  count_events is_notification (w_trace w1)).
      { assert (Hm2 : matches_runc_cgroups (cgroups (tinfo_after r1))
                        CONTAINERD_CGROUP_LAYOUT = Some (id, cg))
          by (destruct (should_lookup _ _ _); injection Hrun as <- <-; exact Hm).
        assert (Hl2 : should_lookup (w_cache (add_trace w1 evs)) (m_id c) CT_CONTAINERD
                      = false).
        { destruct (should_lookup (w_cache wp) (m_id c) CT_CONTAINERD) eqn:Hl;
            injection Hrun as <- <-; cbn [add_trace w_cache]; [|exact Hl].
          apply (Hlaw _ (set_lookup_status _ (set_m_name _ (set_limits _ c))));
            [exact Htype|reflexivity]. }
        pose proof (resolve_parse_true daemon this (tinfo_after r1) q' w1 id cg c _
                      Hm2 (Hall w1)) as Hrun2.
        cbv zeta in Hrun2. change (m_id (set_limits _ c)) with (m_id c) in Hrun2.
        rewrite Hl2 in Hrun2. rewrite Hrun2. eexists _, _. split; [reflexivity|].
        cbn [returned tinfo_after container_local set_m_container_id m_container_id
             add_trace w_cache w_trace].
        split; [reflexivity|]. split; [reflexivity|]. split; [exact Hid|].
        split; [reflexivity|].
        rewrite !count_events_app, Hq1, Hq2. cbn. lia. }
      destruct Hsecond as (r2 & w2 & Hrun2 & Hret2 & Hcid & Hmid & Hcache & Hpub & Hnot).
      exists r2, w2. split; [exact Hrun2|].
      assert (Hfirst : returned r1 = true /\
                (count_events is_publication (w_trace w1)
                   <= count_events is_publication (w_trace w) + 1)%nat /\
                (count_events is_notification (w_trace w1)
                   <= count_events is_notification (w_trace w) + 1)%nat).
      { subst wp.
        destruct (should_lookup _ _ _); injection Hrun as <- <-;
          cbn [returned add_trace w_trace];
          rewrite !count_events_app, Hq1, Hq2; cbn; (split; [reflexivity|lia]). }
      destruct Hfirst as (Hret1 & Hpub1 & Hnot1).
      rewrite Hret1, Hret2, Hpub, Hnot, Hcid, Hmid. auto 10.
    + rewrite (resolve_parse_false _ _ _ _ _ _ _ _ _ Hm Hp) in Hrun.
      injection Hrun as <- <-. cbn [tinfo_after returned].
      eexists _, _. split; [apply (resolve_parse_false _ _ _ _ _ _ _ _ _ Hm (Hall wp))|].
      subst wp. cbn [returned add_trace w_trace].
      rewrite !count_events_app, Hq1, Hq2.
      split; [reflexivity|]. split; [lia|]. split; [lia|discriminate].
  - rewrite (resolve_no_match _ _ _ _ _ Hm) in Hrun. injection Hrun as <- <-.
    cbn [tinfo_after returned].
    eexists _, _. split; [apply (resolve_no_match _ _ _ _ _ Hm)|].
    cbn [returned]. split; [reflexivity|]. split; [lia|]. split; [lia|discriminate].
Qed.

(** C6: with a cache that reports an identity as resolved once a successful
    record of it was added and notified, two calls of [resolve] for the same
    process make at most one publication and one notification: the second
    call returns what the first returned and, after a first [true], finds the
    identity resolved, leaves the cache as it is and keeps the process
    associated with the container id.  And in any call, with any cache: when
    the cache reports the identity as resolved, nothing is published or
    notified, [resolve] returns [true] and the process has the container
    id. *)
Theorem resolve_twice_publishes_once daemon this tinfo q q' w r1 w1 :
  (forall c info t,
     m_type info = CT_CONTAINERD ->
     m_lookup info = sinsp_container_lookup.SUCCESSFUL ->
     should_lookup (notify_new_container (add_container c info t) info t)
                   (m_id info) CT_CONTAINERD = false) ->
  Resolve daemon this tinfo q w = Ret (r1, w1) ->
  (exists r2 w2,
     Resolve daemon this (tinfo_after r1) q' w1 = Ret (r2, w2) /\
     returned r2 = returned r1 /\
     (count_events is_publication (w_trace w2)
        <= count_events is_publication (w_trace w) + 1)%nat /\
     (count_events is_notification (w_trace w2)
        <= count_events is_notification (w_trace w) + 1)%nat /\
     (returned r1 = true ->
        w_cache w2 = w_cache w1 /\
        count_events is_publication (w_trace w2) =
          count_events is_publication (w_trace w1) /\
        count_events is_notification (w_trace w2) =
          count_events is_notification (w_trace w1) /\
        m_container_id (tinfo_after r2) = m_id (container_local r2))) /\
  (forall id cg c wp,
     matches_runc_cgroups (cgroups tinfo) CONTAINERD_CGROUP_LAYOUT = Some (id, cg) ->
     Parse daemon this sinsp_container_info_new id w = Ret ((true, c), wp) ->
     should_lookup (w_cache w) id CT_CONTAINERD = false ->
     returned r1 = true /\
     m_container_id (tinfo_after r1) = id /\
     w_cache w1 = w_cache w /\
     count_events is_publication (w_trace w1) = count_events is_publication (w_trace w) /\
     count_events is_notification (w_trace w1) =
       count_events is_notification (w_trace w)).
Proof.
  intros Hlaw Hrun. split; [exact (resolve_second_call _ _ _ _ q' _ _ _ Hlaw Hrun)|].
  intros id cg c wp Hm Hp Hl.
  destruct (parse_containerd_inv _ _ _ _ _ _ _ _ Hp)
    as (interface & stub & evs & _ & _ & Hq & Hall & _ & Htrue).
  assert (Hwp : wp = add_trace w evs)
    by (rewrite Hall in Hp; now injection Hp as <-).
  destruct (Htrue eq_refl) as (resp & c0 & _ & _ & Hfill).
  apply fill_from_descriptor_inv in Hfill as (Hid & _).
  assert (Hl' : should_lookup (w_cache wp) (m_id c) CT_CONTAINERD = false)
    by (subst wp; rewrite Hid; exact Hl).
  destruct (resolve_skips_resolved daemon this tinfo q w id cg c wp Hm Hp Hl')
    as (r & w2 & Hrun' & Hret & Hcid & Hcache & Hpub & Hnot).
  rewrite Hrun in Hrun'. injection Hrun' as <- <-.
  destruct (quiet_counts evs Hq) as (Hq1 & Hq2 & _).
  subst wp. cbn [add_trace w_cache w_trace] in Hcache, Hpub, Hnot.
  rewrite count_events_app in Hpub, Hnot.
  repeat split; [exact Hret|exact Hcid|exact Hcache|lia|lia].
Qed.


(** *** More on parse_containerd and resolve *)

Lemma list_calls_app (tr1 tr2 : list event) :
  list_calls (tr1 ++ tr2) = list_calls tr1 ++ list_calls tr2.
Proof. apply omap_app. Qed.

(** [parse_containerd] faults on a null interface or stub, and otherwise
    only where [fill_from_descriptor] does. *)
Lemma parse_containerd_fault daemon this container id w f :
  Parse daemon this container id w = Fault f ->
  (f = NullDereference /\ bound_target this = None) \/
  (exists interface stub resp c0,
     m_interface this = Some interface /\ m_stub interface = Some stub /\
     daemon (target stub) default_namespace_context (filter_request id) = (grpc.OK, resp) /\
     ContainerdService.containers resp = [c0] /\
     Fill c0 container id = Fault f).
Proof.
  intros Hrun. unfold bound_target.
  destruct (m_interface this) as [interface|] eqn:Hi;
    [|rewrite (parse_containerd_null _ _ _ _ _ Hi) in Hrun;
      injection Hrun as <-; now left].
  destruct (m_stub interface) as [stub|] eqn:Hs.
  2:{ unfold parse_containerd, list_container_resp in Hrun. rewrite Hi, Hs in Hrun.
      injection Hrun as <-. left. cbn. now rewrite Hs. }
  right. exists interface, stub.
  destruct (daemon (target stub) default_namespace_context (filter_request id))
    as [status resp] eqn:Hd.
  destruct (decide (grpc.ok status = true /\
                    length (ContainerdService.containers resp) = 1%nat)) as [[Hok Hlen]|Hbad].
  - destruct status; [|discriminate].
    destruct (ContainerdService.containers resp) as [|c0 [|c1 l]] eqn:Hc; try discriminate.
    rewrite (parse_containerd_accepts _ _ _ _ _ _ _ _ _ Hi Hs Hd Hc) in Hrun.
    destruct (Fill c0 container id) as [c1|f'] eqn:Hf; [discriminate|].
    injection Hrun as <-. exists resp, c0. auto.
  - destruct (parse_containerd_rejects daemon this container id _ _ Hi Hs)
      as (evs & _ & Hall).
    { rewrite Hd; cbn [fst snd].
      destruct (grpc.ok status); [right|now left]. intros Hlen. now apply Hbad. }
    rewrite Hall in Hrun. discriminate.
Qed.

(** X8: where an exception leaves [resolve].  [resolve] faults exactly when
    the cgroup of the process matched and either the engine has no channel,
    and the fault is the null dereference, or the daemon answered without
    error with exactly one descriptor and filling the record from it faults,
    and the fault is that one.  It has no handler: what is thrown while the
    record is filled goes through [parse_containerd] and [resolve]. *)
Theorem resolve_fault_causes daemon this tinfo q w f :
  Resolve daemon this tinfo q w = Fault f <->
  exists id cg,
    matches_runc_cgroups (cgroups tinfo) CONTAINERD_CGROUP_LAYOUT = Some (id, cg) /\
    ((f = NullDereference /\ bound_target this = None) \/
     (exists stub resp c0,
        bound_target this = Some (target stub) /\
        daemon (target stub) default_namespace_context (filter_request id)
          = (grpc.OK, resp) /\
        ContainerdService.containers resp = [c0] /\
        Fill c0 sinsp_container_info_new id = Fault f)).
Proof.
  split.
  - intros Hrun.
    destruct (matches_runc_cgroups (cgroups tinfo) CONTAINERD_CGROUP_LAYOUT)
      as [[id cg]|] eqn:Hm;
      [|rewrite (resolve_no_match _ _ _ _ _ Hm) in Hrun; discriminate].
    exists id, cg. split; [reflexivity|].
    destruct (Parse daemon this sinsp_container_info_new id w) as [[[b c] w1]|f'] eqn:Hp.
    + destruct b.
      * rewrite (resolve_parse_true _ _ _ _ _ _ _ _ _ Hm Hp) in Hrun.
        now destruct (should_lookup _ _ _).
      * now rewrite (resolve_parse_false _ _ _ _ _ _ _ _ _ Hm Hp) in Hrun.
    + rewrite (resolve_parse_fault _ _ _ _ _ _ _ _ Hm Hp) in Hrun. injection Hrun as <-.
      destruct (parse_containerd_fault _ _ _ _ _ _ Hp)
        as [?|(interface & stub & resp & c0 & Hi & Hs & Hd & Hc & Hf)]; [now left|].
      right. exists stub, resp, c0. unfold bound_target. rewrite Hi. cbn. rewrite Hs.
      repeat split; assumption.
  - intros (id & cg & Hm & [[-> Hnone]|(stub & resp & c0 & Hb & Hd & Hc & Hf)]);
      apply (resolve_parse_fault _ _ _ _ _ _ _ _ Hm).
    + unfold bound_target in Hnone.
      destruct (m_interface this) as [interface|] eqn:Hi;
        [|now apply parse_containerd_null].
      cbn in Hnone. destruct (m_stub interface) as [stub|] eqn:Hs; [discriminate|].
      unfold parse_containerd, list_container_resp. now rewrite Hi, Hs.
    + unfold bound_target in Hb.
      destruct (m_interface this) as [interface|] eqn:Hi; [|discriminate].
      cbn in Hb. destruct (m_stub interface) as [stub'|] eqn:Hs; [|discriminate].
      destruct stub as [t], stub' as [t']. cbn in Hb, Hd. injection Hb as ->.
      rewrite (parse_containerd_accepts _ _ _ _ _ _ _ _ w Hi Hs Hd Hc).
      now rewrite Hf.
Qed.

(** The list call of [parse_containerd]: one, on the channel of the engine,
    with the match filter on the id. *)
Lemma parse_containerd_calls daemon this container id w res w' :
  Parse daemon this container id w = Ret (res, w') ->
  exists t,
    bound_target this = Some t /\
    list_calls (w_trace w') =
    list_calls (w_trace w) ++ [(t, default_namespace_context, filter_request id)].
Proof.
  unfold parse_containerd, bound_target.
  destruct (m_interface this) as [interface|]; [|discriminate].
  unfold list_container_resp, Stub_List. cbn [mbind option_bind].
  destruct (m_stub interface) as [stub|]; [|discriminate].
  run_M. destruct (daemon _ _ _) as [status resp].
  exists (target stub). split; [reflexivity|]. revert H.
  destruct (grpc.ok status); cbn [negb].
  - destruct (ContainerdService.containers resp) as [|c0 [|c1 l]]; cbn.
    + intros [= <- <-]. cbn. now rewrite !list_calls_app, app_nil_r.
    + destruct (Fill c0 container id); [|discriminate].
      intros [= <- <-]. cbn. now rewrite list_calls_app.
    + intros [= <- <-]. cbn. now rewrite !list_calls_app, app_nil_r.
  - intros [= <- <-]. cbn. now rewrite !list_calls_app, app_nil_r.
Qed.

(** X9: [resolve] asks the daemon nothing for a process whose cgroup does
    not match; for one that matches it makes one list call, on the channel of
    the engine, in the [default] namespace, with the one filter [id~=<id>]. *)
Theorem resolve_list_calls daemon this tinfo q w r w' :
  Resolve daemon this tinfo q w = Ret (r, w') ->
  match matches_runc_cgroups (cgroups tinfo) CONTAINERD_CGROUP_LAYOUT with
  | None => list_calls (w_trace w') = list_calls (w_trace w)
  | Some (id, _) =>
      exists t,
        bound_target this = Some t /\
        list_calls (w_trace w') =
        list_calls (w_trace w) ++
        [(t, {| grpc.metadata := [("containerd-namespace", "default")]%string |},
          {| ContainerdService.filters := ["id~=" +:+ id] |})]
  end.
Proof.
  intros Hrun.
  destruct (matches_runc_cgroups (cgroups tinfo) CONTAINERD_CGROUP_LAYOUT)
    as [[id cg]|] eqn:Hm.
  - destruct (Parse daemon this sinsp_container_info_new id w) as [[[b c] w1]|f] eqn:Hp;
      [|rewrite (resolve_parse_fault _ _ _ _ _ _ _ _ Hm Hp) in Hrun; discriminate].
    destruct (parse_containerd_calls _ _ _ _ _ _ _ Hp) as (t & Ht & Hcalls).
    exists t. split; [exact Ht|].
    change {| grpc.metadata := _ |} with default_namespace_context.
    change {| ContainerdService.filters := _ |} with (filter_request id).
    rewrite <- Hcalls. destruct b.
    + rewrite (resolve_parse_true _ _ _ _ _ _ _ _ _ Hm Hp) in Hrun.
      destruct (should_lookup _ _ _); injection Hrun as <- <-;
        cbn [add_trace w_trace]; rewrite list_calls_app; cbn; now rewrite app_nil_r.
    + rewrite (resolve_parse_false _ _ _ _ _ _ _ _ _ Hm Hp) in Hrun.
      now injection Hrun as <- <-.
  - rewrite (resolve_no_match _ _ _ _ _ Hm) in Hrun. now injection Hrun as <- <-.
Qed.

(** X10: [resolve] never changes the cgroups of the process; when it returns
    [true] the container id of the process is the id the matcher took from
    the cgroups, and it is the id of the record. *)
Theorem resolve_associates_matched_id daemon this tinfo q w r w' :
  Resolve daemon this tinfo q w = Ret (r, w') ->
  cgroups (tinfo_after r) = cgroups tinfo /\
  (returned r = true ->
   exists cg,
     matches_runc_cgroups (cgroups tinfo) CONTAINERD_CGROUP_LAYOUT =
       Some (m_container_id (tinfo_after r), cg) /\
     m_id (container_local r) = m_container_id (tinfo_after r)).
Proof.
  intros Hrun.
  destruct (matches_runc_cgroups (cgroups tinfo) CONTAINERD_CGROUP_LAYOUT)
    as [[id cg]|] eqn:Hm.
  - destruct (Parse daemon this sinsp_container_info_new id w) as [[[b c] w1]|f] eqn:Hp;
      [|rewrite (resolve_parse_fault _ _ _ _ _ _ _ _ Hm Hp) in Hrun; discriminate].
    destruct b.
    + destruct (parse_containerd_inv _ _ _ _ _ _ _ _ Hp)
        as (interface & stub & evs & _ & _ & _ & _ & _ & Htrue).
      destruct (Htrue eq_refl) as (resp & c0 & _ & _ & Hfill).
      apply fill_from_descriptor_inv in Hfill as (Hid & _).
      rewrite (resolve_parse_true _ _ _ _ _ _ _ _ _ Hm Hp) in Hrun.
      destruct (should_lookup _ _ _); injection Hrun as <- <-;
        (split; [reflexivity|]); intros _; exists cg; cbn; auto.
    + rewrite (resolve_parse_false _ _ _ _ _ _ _ _ _ Hm Hp) in Hrun.
      injection Hrun as <- <-. split; [reflexivity|discriminate].
  - rewrite (resolve_no_match _ _ _ _ _ Hm) in Hrun. injection Hrun as <- <-.
    split; [reflexivity|discriminate].
Qed.

(** X11: what [resolve] publishes.  A call adds at most one record to the
    cache and notifies it right after, the same record for the same process;
    the record is the one the call assembled, its name is its id, its lookup
    state is successful and its type is containerd, the process has its id,
    and the cache had asked for the lookup.  Without a publication the cache
    is as it was. *)
Theorem resolve_publication daemon this tinfo q w r w' :
  Resolve daemon this tinfo q w = Ret (r, w') ->
  exists evs,
    w_trace w' = w_trace w ++ evs /\
    (count_events is_publication evs = 0%nat /\
     count_events is_notification evs = 0%nat /\
     w_cache w' = w_cache w
     \/
     exists quiet key,
       evs = quiet ++ [EvLimits key;
                       EvAddContainer (container_local r) (tinfo_after r);
                       EvNotifyNewContainer (container_local r) (tinfo_after r)] /\
       forallb is_quiet quiet = true /\
       returned r = true /\
       should_lookup (w_cache w) (m_id (container_local r)) CT_CONTAINERD = true /\
       w_cache w' =
         notify_new_container
           (add_container (w_cache w) (container_local r) (tinfo_after r))
           (container_local r) (tinfo_after r) /\
       m_name (container_local r) = m_id (container_local r) /\
       m_lookup (container_local r) = sinsp_container_lookup.SUCCESSFUL /\
       m_type (container_local r) = CT_CONTAINERD /\
       m_container_id (tinfo_after r) = m_id (container_local r)).
Proof.
  intros Hrun.
  destruct (matches_runc_cgroups (cgroups tinfo) CONTAINERD_CGROUP_LAYOUT)
    as [[id cg]|] eqn:Hm.
  - destruct (Parse daemon this sinsp_container_info_new id w) as [[[b c] w1]|f] eqn:Hp;
      [|rewrite (resolve_parse_fault _ _ _ _ _ _ _ _ Hm Hp) in Hrun; discriminate].
    destruct (parse_containerd_inv _ _ _ _ _ _ _ _ Hp)
      as (interface & stub & evs & _ & _ & Hq & Hall & _ & Htrue).
    assert (Hw1 : w1 = add_trace w evs)
      by (rewrite Hall in Hp; now injection Hp as <-).
    destruct (quiet_counts evs Hq) as (Hq1 & Hq2 & _).
    destruct b.
    + destruct (Htrue eq_refl) as (resp & c0 & _ & _ & Hfill).
      apply fill_from_descriptor_inv in Hfill as (Hid & _ & Htype & _).
      rewrite (resolve_parse_true _ _ _ _ _ _ _ _ _ Hm Hp) in Hrun.
      cbv zeta in Hrun. change (m_id (set_limits _ c)) with (m_id c) in Hrun.
      subst w1. cbn [add_trace w_cache w_trace] in Hrun.
      destruct (should_lookup (w_cache w) (m_id c) CT_CONTAINERD) eqn:Hl;
        injection Hrun as <- <-.
      * eexists. split; [cbn [w_trace]; now rewrite <- app_assoc|].
        right. eexists evs, _. split; [reflexivity|].
        cbn. repeat split; auto.
      * eexists. split; [cbn [add_trace w_trace]; rewrite <- ?app_assoc; reflexivity|].
        left. rewrite !count_events_app, Hq1, Hq2. now cbn.
    + rewrite (resolve_parse_false _ _ _ _ _ _ _ _ _ Hm Hp) in Hrun.
      injection Hrun as <- <-. subst w1. exists evs. split; [reflexivity|]. now left.
  - rewrite (resolve_no_match _ _ _ _ _ Hm) in Hrun. injection Hrun as <- <-.
    exists []. split; [now rewrite app_nil_r|]. now left.
Qed.

(** X18: when the list call fails, [resolve] returns [false] whatever the
    response holds, with the record and the process untouched; after the call
    it writes one debug line, with the message of the status and an empty
    container id, the id of the record being set only later. *)
Theorem resolve_rpc_error daemon this tinfo q w interface stub id cg msg resp :
  m_interface this = Some interface ->
  m_stub interface = Some stub ->
  matches_runc_cgroups (cgroups tinfo) CONTAINERD_CGROUP_LAYOUT = Some (id, cg) ->
  daemon (target stub) default_namespace_context (filter_request id)
    = (grpc.Error msg, resp) ->
  Resolve daemon this tinfo q w =
  Ret ({| returned := false; tinfo_after := tinfo;
          container_local := sinsp_container_info_new |},
       add_trace w
         [EvList (target stub) default_namespace_context (filter_request id);
          EvLog sinsp_logger.SEV_DEBUG
            ("containerd (): ListContainerResponse status error message: ("
             +:+ msg +:+ ")")]).
Proof.
  intros Hi Hs Hm Hd. apply (resolve_parse_false _ _ _ _ _ _ _ _ _ Hm).
  unfold parse_containerd. rewrite Hi. unfold list_container_resp, Stub_List.
  rewrite Hs. run_M. rewrite Hd. cbn. unfold add_trace. cbn.
  now rewrite <- app_assoc.
Qed.

(** Without interface, a process whose cgroup matches makes [resolve]
    dereference the null pointer. *)
Lemma resolve_null_interface daemon this tinfo q w id cg :
  m_interface this = None ->
  matches_runc_cgroups (cgroups tinfo) CONTAINERD_CGROUP_LAYOUT = Some (id, cg) ->
  Resolve daemon this tinfo q w = Fault NullDereference.
Proof.
  intros Hi Hm. apply (resolve_parse_fault _ _ _ _ _ _ _ _ Hm).
  now apply parse_containerd_null.
Qed.

End ResolutionFacts.

(** ** The constructor *)

Section DiscoveryFacts.

Context {C : Type}.
Variable scap_get_host_root : string.
Variable stat : string -> option Z.

Local Abbreviation Try := (containerd_try_socket (C := C) scap_get_host_root stat).
Local Abbreviation Loop := (containerd_socket_loop (C := C) scap_get_host_root stat).
Local Abbreviation New := (containerd_new_from (C := C) scap_get_host_root stat).
Local Abbreviation Candidate := (is_socket_candidate scap_get_host_root stat).
Local Abbreviation Usable := (is_usable_candidate scap_get_host_root stat).

Implicit Types (daemon : containerd_daemon) (w : world (C := C)).
Implicit Types (m_interface : option containerd_interface).

Ltac run_M :=
  unfold mbind, M_bind, mret, M_ret, lift, log, emit, read_cache, update_cache;
  cbn [w_cache w_trace fst snd].

(** An empty entry, a missing path and a path that is not a socket are
    passed over. *)
Lemma try_socket_skips daemon m_interface p w :
  Candidate p = false -> Try daemon m_interface p w = Ret (m_interface, w).
Proof.
  unfold is_socket_candidate, is_socket, containerd_try_socket.
  destruct (Str.empty p); [reflexivity|]. cbn [negb andb].
  destruct (stat _) as [st_mode|]; [|reflexivity]. now intros ->.
Qed.

(** A socket whose daemon answers becomes the interface. *)
Lemma try_socket_binds daemon m_interface p w :
  Usable daemon p = true ->
  exists evs,
    Try daemon m_interface p w =
    Ret (Some {| m_stub := Some {| target := "unix://" +:+ scap_get_host_root +:+ p |} |},
         add_trace w evs).
Proof.
  unfold is_usable_candidate, is_socket_candidate, is_socket, channel_ok,
    containerd_try_socket, containerd_interface_new, Stub_List.
  destruct (Str.empty p); [discriminate|]. cbn [negb andb].
  destruct (stat _) as [st_mode|]; [|discriminate].
  intros [Hsock Hok]%andb_prop. rewrite Hsock. run_M. cbn [negb target].
  destruct (daemon _ _ _) as [status resp]. cbn [fst] in Hok. rewrite Hok.
  eexists [_]. reflexivity.
Qed.

(** A socket whose daemon does not answer leaves the engine without
    interface. *)
Lemma try_socket_resets daemon m_interface p w :
  Candidate p = true ->
  Usable daemon p = false ->
  exists evs, Try daemon m_interface p w = Ret (None, add_trace w evs).
Proof.
  unfold is_usable_candidate. intros Hc. rewrite Hc. cbn [andb]. revert Hc.
  unfold is_socket_candidate, is_socket, channel_ok,
    containerd_try_socket, containerd_interface_new, Stub_List.
  destruct (Str.empty p); [discriminate|]. cbn [negb andb].
  destruct (stat _) as [st_mode|]; [|discriminate].
  intros Hsock Hok. rewrite Hsock. run_M. cbn [negb target].
  destruct (daemon _ _ _) as [status resp]. cbn [fst] in Hok. rewrite Hok.
  eexists [_; _]. cbn. unfold add_trace. cbn. now rewrite <- app_assoc.
Qed.

(** The loop ends, whatever the candidates, and leaves the cache alone. *)
Lemma socket_loop_total daemon sockets m_interface w :
  exists m_interface' w',
    Loop daemon sockets m_interface w = Ret (m_interface', w') /\
    w_cache w' = w_cache w.
Proof.
  revert m_interface w. induction sockets as [|p rest IH]; intros mi w.
  - now exists mi, w.
  - cbn [containerd_socket_loop]. unfold mbind at 1, M_bind.
    destruct (Candidate p) eqn:Hc.
    + destruct (Usable daemon p) eqn:Hu.
      * destruct (try_socket_binds daemon mi p w Hu) as (evs & ->).
        destruct (IH (Some {| m_stub := Some {| target := "unix://" +:+ scap_get_host_root +:+ p |} |})
                     (add_trace w evs))
          as (mi' & w' & -> & Hw). now exists mi', w'.
      * destruct (try_socket_resets daemon mi p w Hc Hu) as (evs & ->).
        destruct (IH None (add_trace w evs)) as (mi' & w' & -> & Hw). now exists mi', w'.
    + rewrite (try_socket_skips daemon mi p w Hc). apply IH.
Qed.

(** Candidates that are no sockets leave the interface as it is. *)
Lemma socket_loop_skips daemon sockets m_interface w :
  forallb (fun q => negb (Candidate q)) sockets = true ->
  Loop daemon sockets m_interface w = Ret (m_interface, w).
Proof.
  induction sockets as [|p rest IH]; cbn [forallb containerd_socket_loop]; [reflexivity|].
  intros [Hp Hrest]%andb_prop. apply negb_true_iff in Hp.
  unfold mbind at 1, M_bind. rewrite (try_socket_skips daemon _ p w Hp). now apply IH.
Qed.

Lemma socket_loop_app daemon pre post m_interface w :
  Loop daemon (pre ++ post) m_interface w =
  match Loop daemon pre m_interface w with
  | Ret (m_interface', w') => Loop daemon post m_interface' w'
  | Fault f => Fault f
  end.
Proof.
  revert m_interface w. induction pre as [|p pre IH]; intros mi w; [reflexivity|].
  cbn [app containerd_socket_loop]. unfold mbind, M_bind.
  destruct (Try daemon mi p w) as [[mi' w']|f]; [apply IH|reflexivity].
Qed.

(** Without a socket that answers among the candidates the engine has no
    interface. *)
Lemma socket_loop_none_usable daemon sockets w :
  forallb (fun q => negb (Usable daemon q)) sockets = true ->
  exists w', Loop daemon sockets None w = Ret (None, w').
Proof.
  revert w. induction sockets as [|p rest IH]; intros w; cbn [forallb containerd_socket_loop].
  - now exists w.
  - intros [Hp Hrest]%andb_prop. apply negb_true_iff in Hp.
    unfold mbind at 1, M_bind. destruct (Candidate p) eqn:Hc.
    + destruct (try_socket_resets daemon None p w Hc Hp) as (evs & ->). now apply IH.
    + rewrite (try_socket_skips daemon None p w Hc). now apply IH.
Qed.

(** C2 (amended): the constructor passes over empty entries and entries
    that are no sockets, without error.  When [p] is the first candidate that
    exists as a socket and whose first list call succeeds, and no candidate
    after [p] exists as a socket, the engine is bound to the channel to [p]
    under the host root. *)
Theorem containerd_binds_first_usable daemon pre p post w :
  forallb (fun q => negb (Usable daemon q)) pre = true ->
  Usable daemon p = true ->
  forallb (fun q => negb (Candidate q)) post = true ->
  exists this w',
    New daemon (pre ++ p :: post) w = Ret (this, w') /\
    bound_target this = Some ("unix://" +:+ scap_get_host_root +:+ p) /\
    w_cache w' = w_cache w.
Proof.
  intros _ Hp Hpost. unfold containerd_new_from. unfold mbind, M_bind.
  rewrite socket_loop_app.
  destruct (socket_loop_total daemon pre None w) as (mi & w1 & -> & Hw1).
  cbn [containerd_socket_loop]. unfold mbind at 1, M_bind.
  destruct (try_socket_binds daemon mi p w1 Hp) as (evs & ->).
  rewrite (socket_loop_skips daemon post _ _ Hpost).
  eexists _, _. split; [reflexivity|]. split; [reflexivity|exact Hw1].
Qed.

(** *** More on the constructor *)

(** The interface the loop ends with is the one it started with or the one
    of a candidate of the list that is a socket and answered. *)
Lemma socket_loop_interface daemon sockets m_interface w m_interface' w' :
  Loop daemon sockets m_interface w = Ret (m_interface', w') ->
  forall i, m_interface' = Some i ->
    m_interface = Some i \/
    exists p, In p sockets /\ Usable daemon p = true /\
      m_stub i = Some {| target := "unix://" +:+ scap_get_host_root +:+ p |}.
Proof.
  revert m_interface w. induction sockets as [|p rest IH]; intros mi w.
  - cbn. intros [= <- <-] i ->. now left.
  - cbn [containerd_socket_loop]. unfold mbind at 1, M_bind.
    destruct (Candidate p) eqn:Hc.
    + destruct (Usable daemon p) eqn:Hu.
      * destruct (try_socket_binds daemon mi p w Hu) as (evs & ->).
        intros Hloop i Hi. destruct (IH _ _ Hloop i Hi) as [[= <-]|(p' & Hin & Hp')].
        -- right. exists p. split; [now left|]. split; [exact Hu|reflexivity].
        -- right. exists p'. split; [now right|exact Hp'].
      * destruct (try_socket_resets daemon mi p w Hc Hu) as (evs & ->).
        intros Hloop i Hi. destruct (IH _ _ Hloop i Hi) as [[=]|(p' & Hin & Hp')].
        right. exists p'. split; [now right|exact Hp'].
    + rewrite (try_socket_skips daemon mi p w Hc).
      intros Hloop i Hi. destruct (IH _ _ Hloop i Hi) as [?|(p' & Hin & Hp')];
        [now left|].
      right. exists p'. split; [now right|exact Hp'].
Qed.

(** X12: the interface of an engine the constructor made is usable: its
    stub is set, on the channel to a candidate of the list that is not
    empty, exists under the host root as a socket and answered the first
    list call. *)
Theorem containerd_interface_is_usable daemon sockets w this w' :
  containerd_new_from scap_get_host_root stat daemon sockets w = Ret (this, w') ->
  forall i, m_interface this = Some i ->
    exists p, In p sockets /\
      is_usable_candidate scap_get_host_root stat daemon p = true /\
      m_stub i = Some {| target := "unix://" +:+ scap_get_host_root +:+ p |}.
Proof.
  unfold containerd_new_from. unfold mbind, M_bind.
  destruct (Loop daemon sockets None w) as [[mi w1]|] eqn:Hloop; [|discriminate].
  intros [= <- <-] i Hi. cbn in Hi.
  destruct (socket_loop_interface _ _ _ _ _ _ Hloop i Hi) as [[=]|H]. exact H.
Qed.

(** X13: the last candidate that exists as a socket decides: the engine is
    bound to its channel when its daemon answers the first list call and has
    no interface when it does not, whatever the candidates before it gave. *)
Theorem containerd_last_socket_decides daemon pre p post w :
  Candidate p = true ->
  forallb (fun q => negb (Candidate q)) post = true ->
  exists this w',
    New daemon (pre ++ p :: post) w = Ret (this, w') /\
    bound_target this =
      if Usable daemon p then Some ("unix://" +:+ scap_get_host_root +:+ p) else None.
Proof.
  intros Hc Hpost. unfold containerd_new_from. unfold mbind, M_bind.
  rewrite socket_loop_app.
  destruct (socket_loop_total daemon pre None w) as (mi & w1 & -> & _).
  cbn [containerd_socket_loop]. unfold mbind at 1, M_bind.
  destruct (Usable daemon p) eqn:Hu.
  - destruct (try_socket_binds daemon mi p w1 Hu) as (evs & ->).
    rewrite (socket_loop_skips daemon post _ _ Hpost). now eexists _, _.
  - destruct (try_socket_resets daemon mi p w1 Hc Hu) as (evs & ->).
    rewrite (socket_loop_skips daemon post _ _ Hpost). now eexists _, _.
Qed.

(** X14: when no candidate exists as a socket the constructor does nothing:
    no list call, no log line, and the engine has no interface. *)
Theorem containerd_without_socket daemon sockets w :
  forallb (fun q => negb (is_socket_candidate scap_get_host_root stat q)) sockets = true ->
  containerd_new_from scap_get_host_root stat daemon sockets w =
  Ret ({| m_interface := None |}, w).
Proof.
  intros H. unfold containerd_new_from. unfold mbind, M_bind.
  now rewrite (socket_loop_skips daemon sockets None w H).
Qed.

(** The list call of one iteration. *)
Lemma try_socket_calls daemon m_interface p w :
  exists m_interface' w',
    Try daemon m_interface p w = Ret (m_interface', w') /\
    w_cache w' = w_cache w /\
    list_calls (w_trace w') =
    list_calls (w_trace w) ++
    (if Candidate p
     then [("unix://" +:+ scap_get_host_root +:+ p, default_namespace_context,
            {| ContainerdService.filters := [] |})]
     else []).
Proof.
  destruct (Candidate p) eqn:Hc.
  - revert Hc. unfold is_socket_candidate, is_socket, containerd_try_socket,
      containerd_interface_new, Stub_List.
    destruct (Str.empty p); [discriminate|]. cbn [negb andb].
    destruct (stat _) as [st_mode|]; [|discriminate].
    intros ->. run_M. cbn [negb target].
    destruct (daemon _ _ _) as [status resp].
    destruct (grpc.ok status); cbn; eexists _, _;
      (split; [reflexivity|]); (split; [reflexivity|]); cbn [w_trace];
      rewrite ?list_calls_app; cbn; now rewrite ?app_nil_r.
  - rewrite (try_socket_skips daemon m_interface p w Hc).
    exists m_interface, w. now rewrite app_nil_r.
Qed.

(** X15: the constructor makes one list call for every candidate that
    exists as a socket, in the order of the list and also after one has
    answered: without filter, in the [default] namespace, on the channel to
    the candidate under the host root.  It leaves the cache alone. *)
Theorem containerd_probes_every_socket daemon sockets w :
  exists this w',
    New daemon sockets w = Ret (this, w') /\
    w_cache w' = w_cache w /\
    list_calls (w_trace w') =
    list_calls (w_trace w) ++
    ((fun p => ("unix://" +:+ scap_get_host_root +:+ p,
                {| grpc.metadata := [("containerd-namespace", "default")]%string |},
                {| ContainerdService.filters := [] |}))
       <$> List.filter Candidate sockets).
Proof.
  unfold containerd_new_from. unfold mbind, M_bind.
  assert (Hloop : forall mi w0, exists mi' w',
    Loop daemon sockets mi w0 = Ret (mi', w') /\ w_cache w' = w_cache w0 /\
    list_calls (w_trace w') =
    list_calls (w_trace w0) ++
    ((fun p => ("unix://" +:+ scap_get_host_root +:+ p, default_namespace_context,
                {| ContainerdService.filters := [] |}))
       <$> List.filter Candidate sockets)).
  { induction sockets as [|p rest IH]; intros mi w0.
    - exists mi, w0. cbn. now rewrite app_nil_r.
    - cbn [containerd_socket_loop List.filter]. unfold mbind at 1, M_bind.
      destruct (try_socket_calls daemon mi p w0) as (mi1 & w1 & -> & Hc1 & Ht1).
      destruct (IH mi1 w1) as (mi2 & w2 & -> & Hc2 & Ht2).
      exists mi2, w2. split; [reflexivity|]. split; [congruence|].
      rewrite Ht2, Ht1, <- app_assoc. f_equal.
      now destruct (Candidate p). }
  destruct (Hloop None w) as (mi & w' & -> & Hc & Ht).
  eexists _, _. split; [reflexivity|]. split; [exact Hc|exact Ht].
Qed.

End DiscoveryFacts.

(** * Concrete runs *)

(** ** The constructor and the null interface *)

(** C1: on a host whose control socket exists but whose daemon does not
    answer, the constructor leaves the engine without interface; [resolve]
    for a process of a container then dereferences the null [m_interface]
    in [parse_containerd] instead of returning [false]. *)
Theorem resolve_after_failed_construction :
  exists this w,
    containerd_new EmptyString (example_stat [host_socket] [])
                   (store_daemon [] [ubuntu_container]) example_world = Ret (this, w) /\
    m_interface this = None /\
    example_matcher (cgroups container_process) CONTAINERD_CGROUP_LAYOUT =
      Some ("3f2a9c1b7d4e", "/default/3f2a9c1b7d4e")%string /\
    example_resolve example_reader (store_daemon [] [ubuntu_container])
                    this container_process true w = Fault NullDereference.
Proof.
  eexists _, _. split; [vm_compute; reflexivity|].
  split; [reflexivity|]. split; vm_compute; reflexivity.
Qed.

(** A process of no container gets [false] from the same engine. *)
Example resolve_null_interface_no_match :
  exists r w,
    example_resolve example_reader (store_daemon [] []) {| m_interface := None |}
                    host_process true example_world = Ret (r, w) /\
    returned r = false.
Proof. eexists _, _. split; vm_compute; reflexivity. Qed.

(** C2, the claim refuted: both candidates exist as sockets and only the
    daemon behind the second answers; the first path that exists as a socket
    is the host socket, and the engine is bound to the other one. *)
Lemma first_socket_not_bound :
  let stat := example_stat [host_socket; runtime2_socket] [] in
  first_socket EmptyString stat CONTAINERD_SOCKETS = Some host_socket /\
  exists this w,
    containerd_new EmptyString stat (store_daemon [runtime2_channel] [])
                   example_world = Ret (this, w) /\
    bound_target this = Some runtime2_channel /\
    bound_target this <> Some ("unix://" +:+ host_socket).
Proof.
  split; [reflexivity|]. eexists _, _. split; [vm_compute; reflexivity|].
  split; [reflexivity|]. vm_compute. discriminate.
Qed.

Lemma containerd_binds_first_usable_witness :
  exists this w',
    containerd_new_from EmptyString (example_stat [host_socket] [runtime2_socket])
      (store_daemon [host_channel] [])
      ([EmptyString; "/run/missing.sock"%string] ++ host_socket :: [runtime2_socket])
      example_world = Ret (this, w') /\
    bound_target this = Some ("unix://" +:+ EmptyString +:+ host_socket) /\
    w_cache w' = w_cache example_world.
Proof.
  apply (containerd_binds_first_usable (C := list_cache) EmptyString
           (example_stat [host_socket] [runtime2_socket])
           (store_daemon [host_channel] [])
           [EmptyString; "/run/missing.sock"%string] host_socket [runtime2_socket]
           example_world);
    reflexivity.
Defined.

(** The loop of the constructor has no [break]: a later socket that answers
    takes the place of an earlier one, and a later socket that does not
    answer leaves the engine without the interface an earlier one gave. *)
Example later_socket_replaces_first :
  exists this w,
    containerd_new EmptyString (example_stat [host_socket; runtime2_socket] [])
                   (store_daemon [host_channel; runtime2_channel] [])
                   example_world = Ret (this, w) /\
    bound_target this = Some runtime2_channel.
Proof. eexists _, _. split; vm_compute; reflexivity. Qed.

Example later_socket_resets_first :
  exists this w,
    containerd_new EmptyString (example_stat [host_socket; runtime2_socket] [])
                   (store_daemon [host_channel] [])
                   example_world = Ret (this, w) /\
    bound_target this = None.
Proof. eexists _, _. split; vm_compute; reflexivity. Qed.

(** ** resolve *)

(** The cache of the examples reports an identity as resolved once a record
    of it was added. *)
Lemma list_cache_resolved_after_add (c : list_cache) info t :
  m_type info = CT_CONTAINERD ->
  m_lookup info = sinsp_container_lookup.SUCCESSFUL ->
  should_lookup (notify_new_container (add_container c info t) info t)
                (m_id info) CT_CONTAINERD = false.
Proof.
  intros Htype _. cbn. unfold list_cache_resolved. cbn.
  rewrite existsb_app. cbn. rewrite String.eqb_refl, Htype. cbn.
  now rewrite orb_true_r.
Qed.

(** C3, the claim refuted: the cgroup of the process matches and the daemon
    does not answer the query; [resolve] returns [false] and the limits were
    never queried. *)
Lemma limits_not_queried_without_daemon :
  example_matcher (cgroups container_process) CONTAINERD_CGROUP_LAYOUT =
    Some ("3f2a9c1b7d4e", "/default/3f2a9c1b7d4e")%string /\
  exists r w',
    example_resolve example_reader (store_daemon [] [ubuntu_container])
                    (bound_engine host_socket) container_process true example_world
    = Ret (r, w') /\
    returned r = false /\
    count_events is_limits_query (w_trace w') = 0%nat.
Proof.
  split; [reflexivity|]. eexists _, _. split; [vm_compute; reflexivity|].
  split; reflexivity.
Qed.

Lemma resolve_attaches_limits_witness :
  exists r w2 evs,
    example_resolve example_reader (store_daemon [host_channel] [ubuntu_container])
                    (bound_engine host_socket) container_process true example_world
    = Ret (r, w2) /\
    returned r = true /\
    limits_of (container_local r) =
      example_limits (limits_key example_get_cgroup "3f2a9c1b7d4e" container_process) /\
    w_trace w2 =
      [EvList host_channel default_namespace_context (filter_request "3f2a9c1b7d4e")] ++
      EvLimits (limits_key example_get_cgroup "3f2a9c1b7d4e" container_process) :: evs /\
    count_events is_limits_query evs = 0%nat /\
    (forall info t, In (EvAddContainer info t) evs ->
       limits_of info =
       example_limits (limits_key example_get_cgroup "3f2a9c1b7d4e" container_process)).
Proof.
  assert (Hparse : exists c w1,
    parse_containerd (C := list_cache) 100 example_reader
      (store_daemon [host_channel] [ubuntu_container]) (bound_engine host_socket)
      sinsp_container_info_new "3f2a9c1b7d4e" example_world = Ret ((true, c), w1) /\
    w_trace w1 =
      [EvList host_channel default_namespace_context (filter_request "3f2a9c1b7d4e")])
    by (eexists _, _; split; vm_compute; reflexivity).
  destruct Hparse as (c & w1 & Hparse & Htrace). rewrite <- Htrace.
  exact (resolve_attaches_limits (C := list_cache) 100 example_matcher example_get_cgroup
           example_limits example_reader
           (store_daemon [host_channel] [ubuntu_container])
           (bound_engine host_socket) container_process true example_world
           "3f2a9c1b7d4e" "/default/3f2a9c1b7d4e" c w1 eq_refl Hparse).
Defined.

(** C4: the image reference [ubuntu:22.04] has no [/]; [rfind] gives [npos]
    and [substr(0, npos)] is the whole text, so the repo of the record is
    [ubuntu], as the image is, and not the empty string. *)
Theorem repo_of_image_without_slash :
  Str.contains_char "/" (ContainerdService.image bare_image_container) = false /\
  exists r w',
    example_resolve example_reader (store_daemon [host_channel] [bare_image_container])
                    (bound_engine host_socket) container_process true example_world
    = Ret (r, w') /\
    returned r = true /\
    m_image (container_local r) = "ubuntu"%string /\
    m_imagerepo (container_local r) = "ubuntu"%string /\
    m_imagetag (container_local r) = "22.04"%string.
Proof.
  split; [reflexivity|]. eexists _, _. split; [vm_compute; reflexivity|].
  repeat split.
Qed.

(** With its repo path the same reference is split as the specification
    says. *)
Example image_with_repo :
  exists r w',
    example_resolve example_reader (store_daemon [host_channel] [ubuntu_container])
                    (bound_engine host_socket) container_process true example_world
    = Ret (r, w') /\
    m_image (container_local r) = "ubuntu"%string /\
    m_imagerepo (container_local r) = "docker.io/library"%string /\
    m_imagetag (container_local r) = "22.04"%string.
Proof. eexists _, _. split; [vm_compute; reflexivity|]. repeat split. Qed.

(** C5, the claim refuted: the daemon holds one container whose id has the
    truncated id in it, two characters in; the filter selects it, [resolve]
    returns [true], and [m_id] is no prefix of [m_full_id]. *)
Lemma id_not_prefix_of_full_id :
  exists r w',
    example_resolve example_reader (store_daemon [host_channel] [infix_container])
                    (bound_engine host_socket) container_process true example_world
    = Ret (r, w') /\
    returned r = true /\
    m_id (container_local r) = "3f2a9c1b7d4e"%string /\
    m_full_id (container_local r) = "ab3f2a9c1b7d4e8a6f0b1c2d"%string /\
    String.prefix (m_id (container_local r)) (m_full_id (container_local r)) = false.
Proof. eexists _, _. split; [vm_compute; reflexivity|]. repeat split. Qed.

Lemma resolve_full_id_contains_id_witness :
  exists r w',
    example_resolve example_reader (store_daemon [host_channel] [infix_container])
                    (bound_engine host_socket) container_process true example_world
    = Ret (r, w') /\
    m_id (container_local r) = "3f2a9c1b7d4e"%string /\
    m_full_id (container_local r) = ContainerdService.id infix_container /\
    Str.is_infix (m_id (container_local r)) (m_full_id (container_local r)) = true.
Proof.
  assert (Hrun : exists r w',
    example_resolve example_reader (store_daemon [host_channel] [infix_container])
                    (bound_engine host_socket) container_process true example_world
    = Ret (r, w') /\ returned r = true)
    by (eexists _, _; split; vm_compute; reflexivity).
  destruct Hrun as (r & w' & Hrun & Hret). exists r, w'. split; [exact Hrun|].
  eapply (resolve_full_id_contains_id (C := list_cache) 100 example_matcher
            example_get_cgroup example_limits example_reader
            (store_daemon [host_channel] [infix_container])
            (bound_engine host_socket) container_process true example_world
            _ _ "3f2a9c1b7d4e" "/default/3f2a9c1b7d4e" grpc.OK
            {| ContainerdService.containers := [infix_container] |} infix_container r w');
    [reflexivity|reflexivity|reflexivity|reflexivity|reflexivity|reflexivity|
     exact Hrun|exact Hret].
Defined.

Lemma resolve_twice_publishes_once_witness :
  exists r1 w1 r2 w2,
    example_resolve example_reader (store_daemon [host_channel] [ubuntu_container])
                    (bound_engine host_socket) container_process true example_world
    = Ret (r1, w1) /\
    example_resolve example_reader (store_daemon [host_channel] [ubuntu_container])
                    (bound_engine host_socket) (tinfo_after r1) true w1
    = Ret (r2, w2) /\
    returned r1 = true /\ returned r2 = true /\
    count_events is_publication (w_trace w1) = 1%nat /\
    (count_events is_publication (w_trace w2) <= 1)%nat /\
    (count_events is_notification (w_trace w2) <= 1)%nat /\
    w_cache w2 = w_cache w1 /\
    m_container_id (tinfo_after r2) = m_id (container_local r2).
Proof.
  assert (Hrun : exists r1 w1,
    example_resolve example_reader (store_daemon [host_channel] [ubuntu_container])
                    (bound_engine host_socket) container_process true example_world
    = Ret (r1, w1) /\ returned r1 = true /\
    count_events is_publication (w_trace w1) = 1%nat)
    by (eexists _, _; split; [vm_compute; reflexivity|split; reflexivity]).
  destruct Hrun as (r1 & w1 & Hrun & Hret & Hone).
  destruct (resolve_twice_publishes_once (C := list_cache) 100 example_matcher
              example_get_cgroup example_limits example_reader
              (store_daemon [host_channel] [ubuntu_container])
              (bound_engine host_socket) container_process true true example_world
              r1 w1 list_cache_resolved_after_add Hrun)
    as ((r2 & w2 & Hrun2 & Hret2 & Hpub & Hnot & Hskip) & _).
  destruct (Hskip Hret) as (Hcache & _ & _ & Hid).
  exists r1, w1, r2, w2. rewrite Hret in Hret2. auto 10.
Defined.

(** C7, the claim refuted: the document of the descriptor is cut short, the
    reader reports the failure and leaves in the root what it had read;
    [resolve] returns [true] and the record has the mount and the env entry
    of the text that was read. *)
Lemma failed_parse_with_mounts :
  (keeping_reader (ContainerdService.value (ContainerdService.spec truncated_container))).1
    = false /\
  exists r w',
    example_resolve keeping_reader (store_daemon [host_channel] [truncated_container])
                    (bound_engine host_socket) container_process true example_world
    = Ret (r, w') /\
    returned r = true /\
    m_mounts (container_local r) =
      [ {| m_source := "/host"; m_dest := "/mnt"; m_mode := EmptyString;
           m_rdwr := false; m_propagation := "rprivate" |} ] /\
    m_env (container_local r) = ["PATH=/usr/bin"]%string.
Proof.
  split; [reflexivity|]. eexists _, _. split; [vm_compute; reflexivity|].
  repeat split.
Qed.

Lemma resolve_lenient_parse_witness :
  (exists r w',
     example_resolve example_reader (store_daemon [host_channel] [garbage_container])
                     (bound_engine host_socket) container_process true example_world
     = Ret (r, w') /\
     returned r = true /\
     m_mounts (container_local r) = [] /\
     m_env (container_local r) = []) /\
  example_resolve (fun doc => (true, (example_reader doc).2))
                  (store_daemon [host_channel] [garbage_container])
                  (bound_engine host_socket) container_process true example_world =
  example_resolve example_reader (store_daemon [host_channel] [garbage_container])
                  (bound_engine host_socket) container_process true example_world /\
  (exists r w',
     example_resolve keeping_reader (store_daemon [host_channel] [truncated_container])
                     (bound_engine host_socket) container_process true example_world
     = Ret (r, w') /\
     returned r = true /\
     m_mounts (container_local r) =
       [ {| m_source := "/host"; m_dest := "/mnt"; m_mode := EmptyString;
            m_rdwr := false; m_propagation := "rprivate" |} ] /\
     m_env (container_local r) = ["PATH=/usr/bin"]%string).
Proof.
  pose proof (resolve_lenient_parse (C := list_cache) 100 example_matcher
                example_get_cgroup example_limits example_reader
                (store_daemon [host_channel] [garbage_container])
                (bound_engine host_socket) container_process true example_world
                _ _ "3f2a9c1b7d4e" "/default/3f2a9c1b7d4e"
                {| ContainerdService.containers := [garbage_container] |}
                garbage_container Json.nullValue
                eq_refl eq_refl eq_refl eq_refl eq_refl eq_refl) as (Hsame & _ & Hnull).
  pose proof (resolve_lenient_parse (C := list_cache) 100 example_matcher
                example_get_cgroup example_limits keeping_reader
                (store_daemon [host_channel] [truncated_container])
                (bound_engine host_socket) container_process true example_world
                _ _ "3f2a9c1b7d4e" "/default/3f2a9c1b7d4e"
                {| ContainerdService.containers := [truncated_container] |}
                truncated_container
                (spec_value "/host" "/mnt" ["ro"] "rprivate" ["PATH=/usr/bin"])
                eq_refl eq_refl eq_refl eq_refl eq_refl eq_refl) as (_ & Hread & _).
  split; [exact (Hnull "docker.io/library/ubuntu" "22.04" [] eq_refl eq_refl)|].
  split; [exact (Hsame (fun doc => (true, (example_reader doc).2)) (fun doc => eq_refl))|].
  exact (Hread "docker.io/library/ubuntu" "22.04" [] _ _ eq_refl eq_refl eq_refl).
Defined.

Lemma resolve_rejects_ambiguous_witness :
  exists w',
    example_resolve example_reader
      (store_daemon [host_channel] [ubuntu_container; infix_container])
      (bound_engine host_socket) container_process true example_world
    = Ret ({| returned := false; tinfo_after := container_process;
              container_local := sinsp_container_info_new |}, w') /\
    w_cache w' = w_cache example_world /\
    count_events is_publication (w_trace w') =
      count_events is_publication (w_trace example_world) /\
    count_events is_notification (w_trace w') =
      count_events is_notification (w_trace example_world).
Proof.
  apply (resolve_rejects_ambiguous (C := list_cache) 100 example_matcher
           example_get_cgroup example_limits example_reader
           (store_daemon [host_channel] [ubuntu_container; infix_container])
           (bound_engine host_socket) container_process true example_world
           {| m_stub := Some {| target := host_channel |} |} {| target := host_channel |}
           "3f2a9c1b7d4e" "/default/3f2a9c1b7d4e" grpc.OK
           {| ContainerdService.containers := [ubuntu_container; infix_container] |});
    [reflexivity|reflexivity|reflexivity|reflexivity|cbn; lia].
Defined.

(** C9: the token [mode=0755,mode=0700] is of the form [mode=<value>], and
    [opt.rfind("mode=")] gives the place of the last [mode=] in it, 10 and
    not 0; the token is passed over and the mode of the mount stays empty.
    The other parts of the mount are as the claim says. *)
Theorem mode_token_with_second_mode :
  String.prefix "mode=" "mode=0755,mode=0700" = true /\
  Str.rfind "mode=0755,mode=0700" "mode=" = 10 /\
  exists r w',
    example_resolve example_reader (store_daemon [host_channel] [mode_container])
                    (bound_engine host_socket) container_process true example_world
    = Ret (r, w') /\
    returned r = true /\
    m_mounts (container_local r) =
      [ {| m_source := "tmpfs"; m_dest := "/dev"; m_mode := EmptyString;
           m_rdwr := true; m_propagation := "rprivate" |} ].
Proof.
  split; [reflexivity|]. split; [reflexivity|].
  eexists _, _. split; [vm_compute; reflexivity|]. repeat split.
Qed.

(** The mount of the specification: [ro] and the root propagation. *)
Example read_only_mount :
  exists r w',
    example_resolve example_reader (store_daemon [host_channel] [ubuntu_container])
                    (bound_engine host_socket) container_process true example_world
    = Ret (r, w') /\
    m_mounts (container_local r) =
      [ {| m_source := "/host"; m_dest := "/mnt"; m_mode := EmptyString;
           m_rdwr := false; m_propagation := "rprivate" |} ].
Proof. eexists _, _. split; [vm_compute; reflexivity|]. reflexivity. Qed.

Lemma resolve_false_frame_witness :
  exists r w',
    example_resolve example_reader (store_daemon [] [ubuntu_container])
                    (bound_engine host_socket) container_process true example_world
    = Ret (r, w') /\
    returned r = false /\
    tinfo_after r = container_process /\
    w_cache w' = w_cache example_world /\
    exists evs, w_trace w' = w_trace example_world ++ evs /\ forallb is_quiet evs = true.
Proof.
  assert (Hrun : exists r w',
    example_resolve example_reader (store_daemon [] [ubuntu_container])
                    (bound_engine host_socket) container_process true example_world
    = Ret (r, w') /\ returned r = false)
    by (eexists _, _; split; vm_compute; reflexivity).
  destruct Hrun as (r & w' & Hrun & Hret). exists r, w'.
  split; [exact Hrun|]. split; [exact Hret|].
  exact (resolve_false_frame (C := list_cache) 100 example_matcher example_get_cgroup
           example_limits example_reader (store_daemon [] [ubuntu_container])
           (bound_engine host_socket) container_process true example_world r w'
           Hrun Hret).
Defined.

(** The other early returns of [resolve]: no cgroup match. *)
Example resolve_no_match_example :
  example_resolve example_reader (store_daemon [host_channel] [ubuntu_container])
                  (bound_engine host_socket) host_process true example_world
  = Ret ({| returned := false; tinfo_after := host_process;
            container_local := sinsp_container_info_new |}, example_world).
Proof. reflexivity. Qed.

(** ** More runs *)

Lemma mode_token_value_witness :
  mount_option_step (false, EmptyString) (Json.stringValue ("mode=" +:+ "0755")) =
  Ret (false, if Str.is_infix "mode=" "0755" then EmptyString else "0755"%string).
Proof. apply (mode_token_value false EmptyString "0755"). vm_compute. intros [=]. Defined.

Lemma parse_mount_well_formed_witness :
  exists mode,
    parse_mount
      (spec_value "/host" "/mnt" ["ro"; "nosuid"] "rprivate" [])
      (Json.objectValue
         [("destination", Json.stringValue "/mnt");
          ("options", Json.arrayValue (Json.stringValue <$> ["ro"; "nosuid"]));
          ("source", Json.stringValue "/host")])%string =
    Ret {| m_source := "/host"; m_dest := "/mnt"; m_mode := mode;
           m_rdwr := negb (existsb (fun opt => String.eqb opt "ro") ["ro"; "nosuid"]%string);
           m_propagation := "rprivate" |} /\
    (forallb (fun opt => negb (String.prefix "mode=" opt)) ["ro"; "nosuid"]%string = true ->
     mode = EmptyString).
Proof.
  apply (parse_mount_well_formed _ _
           (Json.objectValue [("rootfsPropagation", Json.stringValue "rprivate")])%string);
    reflexivity.
Defined.

Lemma parse_env_strings_witness :
  parse_env (spec_value "/host" "/mnt" [] "rprivate" ["PATH=/usr/bin"; "HOME=/root"])
            ["TERM=xterm"]%string =
  Ret (["TERM=xterm"]%string ++ ["PATH=/usr/bin"; "HOME=/root"]%string).
Proof.
  apply (parse_env_strings _
           (Json.objectValue
              [("env", Json.arrayValue
                         (Json.stringValue <$> ["PATH=/usr/bin"; "HOME=/root"]))])%string);
    reflexivity.
Defined.

Lemma parse_mounts_order_witness :
  parse_mounts two_mounts_value
    [ {| m_source := "proc"; m_dest := "/proc"; m_mode := EmptyString;
         m_rdwr := true; m_propagation := "rprivate" |} ] =
  Ret ([ {| m_source := "proc"; m_dest := "/proc"; m_mode := EmptyString;
            m_rdwr := true; m_propagation := "rprivate" |} ] ++
       [ {| m_source := "/host"; m_dest := "/mnt"; m_mode := EmptyString;
            m_rdwr := false; m_propagation := "rprivate" |};
         {| m_source := "tmpfs"; m_dest := "/dev"; m_mode := "0755";
            m_rdwr := true; m_propagation := "rprivate" |} ]).
Proof.
  eapply parse_mounts_order; [reflexivity|].
  repeat constructor.
Defined.

Lemma fill_image_with_repo_witness :
  exists c',
    fill_from_descriptor 100 example_reader ubuntu_container
                         sinsp_container_info_new "3f2a9c1b7d4e" = Ret c' /\
    m_image c' = "ubuntu"%string /\
    m_imagerepo c' = "docker.io/library"%string /\
    m_imagetag c' = "22.04"%string.
Proof.
  assert (Hfill : exists c',
    fill_from_descriptor 100 example_reader ubuntu_container
                         sinsp_container_info_new "3f2a9c1b7d4e" = Ret c')
    by (eexists; vm_compute; reflexivity).
  destruct Hfill as (c' & Hfill). exists c'. split; [exact Hfill|].
  apply (fill_image_with_repo 100 example_reader ubuntu_container
           sinsp_container_info_new "3f2a9c1b7d4e" c'
           "docker.io/library" "ubuntu" "22.04" [] Hfill);
    [reflexivity|reflexivity|vm_compute; intros [=]].
Defined.

Lemma fill_labels_bounded_witness :
  exists c',
    fill_from_descriptor 10 example_reader labelled_container
                         sinsp_container_info_new "3f2a9c1b7d4e" = Ret c' /\
    (m_labels c' !! "app"%string = Some "web"%string <->
     ContainerdService.labels labelled_container !! "app"%string = Some "web"%string /\
     (String.length "web" <= 10)%nat) /\
    (m_labels c' !! "note"%string = Some "a value of more than ten characters"%string <->
     ContainerdService.labels labelled_container !! "note"%string =
       Some "a value of more than ten characters"%string /\
     (String.length "a value of more than ten characters" <= 10)%nat).
Proof.
  assert (Hfill : exists c',
    fill_from_descriptor 10 example_reader labelled_container
                         sinsp_container_info_new "3f2a9c1b7d4e" = Ret c')
    by (eexists; vm_compute; reflexivity).
  destruct Hfill as (c' & Hfill). exists c'. split; [exact Hfill|].
  split; exact (fill_labels_bounded 10 example_reader labelled_container
                  sinsp_container_info_new "3f2a9c1b7d4e" c' Hfill eq_refl _ _).
Defined.

Lemma fill_without_tag_faults_witness :
  fill_from_descriptor 100 example_reader untagged_container
                       sinsp_container_info_new "3f2a9c1b7d4e" = Fault VectorOutOfRange.
Proof.
  apply (fill_without_tag_faults 100 example_reader untagged_container). cbn. lia.
Defined.

Lemma fill_root_not_object_faults_witness :
  fill_from_descriptor 100 array_reader array_container
                       sinsp_container_info_new "3f2a9c1b7d4e" = Fault JsonLogicError.
Proof.
  apply (fill_root_not_object_faults 100 array_reader array_container);
    [cbn; lia|exact I].
Defined.

Lemma resolve_fault_causes_witness :
  (example_resolve array_reader (store_daemon [host_channel] [array_container])
                   (bound_engine host_socket) container_process true example_world
   = Fault JsonLogicError) /\
  (example_resolve example_reader (store_daemon [host_channel] [untagged_container])
                   (bound_engine host_socket) container_process true example_world
   = Fault VectorOutOfRange) /\
  exists id cg,
    example_matcher (cgroups container_process) CONTAINERD_CGROUP_LAYOUT = Some (id, cg) /\
    ((JsonLogicError = NullDereference /\ bound_target (bound_engine host_socket) = None) \/
     (exists stub resp c0,
        bound_target (bound_engine host_socket) = Some (target stub) /\
        store_daemon [host_channel] [array_container] (target stub)
          default_namespace_context (filter_request id) = (grpc.OK, resp) /\
        ContainerdService.containers resp = [c0] /\
        fill_from_descriptor 100 array_reader c0 sinsp_container_info_new id
          = Fault JsonLogicError)).
Proof.
  assert (Hrun :
    example_resolve array_reader (store_daemon [host_channel] [array_container])
                    (bound_engine host_socket) container_process true example_world
    = Fault JsonLogicError) by (vm_compute; reflexivity).
  split; [exact Hrun|]. split.
  - apply (proj2 (resolve_fault_causes (C := list_cache) 100 example_matcher
             example_get_cgroup example_limits example_reader
             (store_daemon [host_channel] [untagged_container])
             (bound_engine host_socket) container_process true example_world
             VectorOutOfRange)).
    exists "3f2a9c1b7d4e"%string, "/default/3f2a9c1b7d4e"%string.
    split; [reflexivity|]. right.
    exists {| target := host_channel |},
           {| ContainerdService.containers := [untagged_container] |},
           untagged_container.
    repeat split.
  - exact (proj1 (resolve_fault_causes (C := list_cache) 100 example_matcher
             example_get_cgroup example_limits array_reader
             (store_daemon [host_channel] [array_container])
             (bound_engine host_socket) container_process true example_world
             JsonLogicError) Hrun).
Defined.

Lemma resolve_list_calls_witness :
  exists r w',
    example_resolve example_reader (store_daemon [host_channel] [ubuntu_container])
                    (bound_engine host_socket) container_process true example_world
    = Ret (r, w') /\
    match example_matcher (cgroups container_process) CONTAINERD_CGROUP_LAYOUT with
    | None => list_calls (w_trace w') = list_calls (w_trace example_world)
    | Some (id, _) =>
        exists t,
          bound_target (bound_engine host_socket) = Some t /\
          list_calls (w_trace w') =
          list_calls (w_trace example_world) ++
          [(t, {| grpc.metadata := [("containerd-namespace", "default")]%string |},
            {| ContainerdService.filters := ["id~=" +:+ id] |})]
    end.
Proof.
  assert (Hrun : exists r w',
    example_resolve example_reader (store_daemon [host_channel] [ubuntu_container])
                    (bound_engine host_socket) container_process true example_world
    = Ret (r, w')) by (eexists _, _; vm_compute; reflexivity).
  destruct Hrun as (r & w' & Hrun). exists r, w'. split; [exact Hrun|].
  exact (resolve_list_calls (C := list_cache) 100 example_matcher example_get_cgroup
           example_limits example_reader (store_daemon [host_channel] [ubuntu_container])
           (bound_engine host_socket) container_process true example_world r w' Hrun).
Defined.

Lemma resolve_associates_matched_id_witness :
  exists r w',
    example_resolve example_reader (store_daemon [host_channel] [ubuntu_container])
                    (bound_engine host_socket) container_process true example_world
    = Ret (r, w') /\
    cgroups (tinfo_after r) = cgroups container_process /\
    (returned r = true ->
     exists cg,
       example_matcher (cgroups container_process) CONTAINERD_CGROUP_LAYOUT =
         Some (m_container_id (tinfo_after r), cg) /\
       m_id (container_local r) = m_container_id (tinfo_after r)).
Proof.
  assert (Hrun : exists r w',
    example_resolve example_reader (store_daemon [host_channel] [ubuntu_container])
                    (bound_engine host_socket) container_process true example_world
    = Ret (r, w')) by (eexists _, _; vm_compute; reflexivity).
  destruct Hrun as (r & w' & Hrun). exists r, w'. split; [exact Hrun|].
  exact (resolve_associates_matched_id (C := list_cache) 100 example_matcher
           example_get_cgroup example_limits example_reader
           (store_daemon [host_channel] [ubuntu_container])
           (bound_engine host_socket) container_process true example_world r w' Hrun).
Defined.

Lemma resolve_publication_witness :
  exists r w' evs,
    example_resolve example_reader (store_daemon [host_channel] [ubuntu_container])
                    (bound_engine host_socket) container_process true example_world
    = Ret (r, w') /\
    w_trace w' = w_trace example_world ++ evs /\
    count_events is_publication evs = 1%nat /\
    count_events is_notification evs = 1%nat /\
    m_name (container_local r) = m_id (container_local r) /\
    m_lookup (container_local r) = sinsp_container_lookup.SUCCESSFUL.
Proof.
  assert (Hrun : exists r w',
    example_resolve example_reader (store_daemon [host_channel] [ubuntu_container])
                    (bound_engine host_socket) container_process true example_world
    = Ret (r, w') /\
    count_events is_publication (w_trace w') = 1%nat)
    by (eexists _, _; split; vm_compute; reflexivity).
  destruct Hrun as (r & w' & Hrun & Hone).
  destruct (resolve_publication (C := list_cache) 100 example_matcher
              example_get_cgroup example_limits example_reader
              (store_daemon [host_channel] [ubuntu_container])
              (bound_engine host_socket) container_process true example_world r w' Hrun)
    as (evs & Htrace & [(Hnone & _)|(quiet & key & -> & Hq & _ & _ & _ & Hname & Hstate & _)]).
  - rewrite Htrace, count_events_app, Hnone in Hone. discriminate Hone.
  - exists r, w', (quiet ++ [EvLimits key;
                            EvAddContainer (container_local r) (tinfo_after r);
                            EvNotifyNewContainer (container_local r) (tinfo_after r)]).
    destruct (quiet_counts quiet Hq) as (Hq1 & Hq2 & _).
    rewrite !count_events_app, Hq1, Hq2.
    split; [exact Hrun|]. split; [exact Htrace|].
    split; [reflexivity|]. split; [reflexivity|]. split; [exact Hname|exact Hstate].
Defined.

Lemma resolve_rpc_error_witness :
  example_resolve example_reader (store_daemon [] [ubuntu_container])
                  (bound_engine host_socket) container_process true example_world =
  Ret ({| returned := false; tinfo_after := container_process;
          container_local := sinsp_container_info_new |},
       add_trace example_world
         [EvList host_channel default_namespace_context (filter_request "3f2a9c1b7d4e");
          EvLog sinsp_logger.SEV_DEBUG
            ("containerd (): ListContainerResponse status error message: ("
             +:+ "failed to connect to all addresses" +:+ ")")]).
Proof.
  apply (resolve_rpc_error (C := list_cache) 100 example_matcher example_get_cgroup
           example_limits example_reader (store_daemon [] [ubuntu_container])
           (bound_engine host_socket) container_process true example_world
           {| m_stub := Some {| target := host_channel |} |} {| target := host_channel |}
           "3f2a9c1b7d4e" "/default/3f2a9c1b7d4e" "failed to connect to all addresses"
           {| ContainerdService.containers := [] |});
    reflexivity.
Defined.

Lemma containerd_interface_is_usable_witness :
  exists this w' i,
    containerd_new_from EmptyString (example_stat [host_socket] [runtime2_socket])
      (store_daemon [host_channel] []) CONTAINERD_SOCKETS example_world = Ret (this, w') /\
    m_interface this = Some i /\
    exists p, In p CONTAINERD_SOCKETS /\
      is_usable_candidate EmptyString (example_stat [host_socket] [runtime2_socket])
        (store_daemon [host_channel] []) p = true /\
      m_stub i = Some {| target := "unix://" +:+ EmptyString +:+ p |}.
Proof.
  assert (Hnew : exists this w' i,
    containerd_new_from EmptyString (example_stat [host_socket] [runtime2_socket])
      (store_daemon [host_channel] []) CONTAINERD_SOCKETS example_world = Ret (this, w') /\
    m_interface this = Some i)
    by (eexists _, _, _; split; vm_compute; reflexivity).
  destruct Hnew as (this & w' & i & Hnew & Hi). exists this, w', i.
  split; [exact Hnew|]. split; [exact Hi|].
  exact (containerd_interface_is_usable (C := list_cache) EmptyString
           (example_stat [host_socket] [runtime2_socket]) (store_daemon [host_channel] [])
           CONTAINERD_SOCKETS example_world this w' Hnew i Hi).
Defined.

Lemma containerd_last_socket_decides_witness :
  exists this w',
    containerd_new_from EmptyString (example_stat [host_socket; runtime2_socket] [])
      (store_daemon [host_channel] []) ([host_socket] ++ runtime2_socket :: [])
      example_world = Ret (this, w') /\
    bound_target this =
      if is_usable_candidate EmptyString (example_stat [host_socket; runtime2_socket] [])
           (store_daemon [host_channel] []) runtime2_socket
      then Some ("unix://" +:+ EmptyString +:+ runtime2_socket) else None.
Proof.
  apply (containerd_last_socket_decides (C := list_cache) EmptyString
           (example_stat [host_socket; runtime2_socket] []) (store_daemon [host_channel] [])
           [host_socket] runtime2_socket [] example_world);
    reflexivity.
Defined.

Lemma containerd_without_socket_witness :
  containerd_new_from EmptyString (example_stat [] [host_socket])
    (store_daemon [host_channel] []) CONTAINERD_SOCKETS example_world =
  Ret ({| m_interface := None |}, example_world).
Proof.
  apply (containerd_without_socket (C := list_cache) EmptyString
           (example_stat [] [host_socket]) (store_daemon [host_channel] [])
           CONTAINERD_SOCKETS example_world).
  reflexivity.
Defined.
